(** * ISS tracker (main.py): a shallow embedding and its verified properties

    The program geocodes a location, looks up its timezone, asks the N2YO
    service for the position of the ISS and for its next visible passes, and
    prints each pass in local time together with 16-point compass labels.

    Layout of this file:
    - [Py]: the fragment of the Python runtime the program relies on
      (exceptions, binary64 floats, JSON values, builtins);
    - [Env]: the external collaborators (stdin, geocoder, timezone finder,
      HTTP, pytz/datetime) and the effect monad that records what the program
      does with them;
    - [Iss]: the functions of main.py, in source order;
    - the vocabulary of the statements (the specification's cardinal
      direction in exact arithmetic, sample responses and worlds);
    - the lemmas on binary64 rounding, then the properties of the program.

    Floats are not idealised: [azimuth / 22.5] is the binary64 division of
    the standard library's [SpecFloat], and [round] is applied to its
    result. *)

From Stdlib Require Import ZArith QArith Qabs Lia List String Ascii Bool.
From Stdlib Require Import Floats.SpecFloat.
Import ListNotations.

Local Open Scope Z_scope.
Set Warnings "-register-all".

(* ================================================================== *)
(** ** The Python runtime fragment *)

Module Py.

(** Exception classes that the program names in a handler or that its
    builtin operations raise. *)
Inductive exn : Type :=
| TypeError
| ValueError
| KeyError
| IndexError
| OverflowError
| RecursionError
| AttributeError
| EOFError
| RequestException
| HTTPError
| ConnectionError
| Timeout
| JSONDecodeError
| GeocoderServiceError
| GeocoderTimedOut
| GeocoderUnavailable
| GeocoderQuotaExceeded
| UnknownTimeZoneError.

(** [except requests.exceptions.RequestException]: the class and its
    subclasses (requests >= 2.27 makes its JSONDecodeError one of them). *)
Definition is_RequestException (e : exn) : bool :=
  match e with
  | RequestException | HTTPError | ConnectionError | Timeout
  | JSONDecodeError => true
  | _ => false
  end.

(** [except (KeyError, IndexError)]; pytz's UnknownTimeZoneError derives from
    KeyError. *)
Definition is_KeyError_or_IndexError (e : exn) : bool :=
  match e with
  | KeyError | IndexError | UnknownTimeZoneError => true
  | _ => false
  end.

(** [except ValueError]; JSONDecodeError derives from it. *)
Definition is_ValueError (e : exn) : bool :=
  match e with
  | ValueError | JSONDecodeError => true
  | _ => false
  end.

(** [except (GeocoderTimedOut, GeocoderUnavailable)]. *)
Definition is_GeocoderTimedOut_or_Unavailable (e : exn) : bool :=
  match e with
  | GeocoderTimedOut | GeocoderUnavailable => true
  | _ => false
  end.

(** A computation that returns or raises. *)
Inductive result (A : Type) : Type :=
| Ok (a : A)
| Raise (e : exn).
Arguments Ok {A} a.
Arguments Raise {A} e.

Definition rbind {A B} (r : result A) (k : A -> result B) : result B :=
  match r with
  | Ok a => k a
  | Raise e => Raise e
  end.

(** The module [pytz.exceptions], by attribute name.  It defines the base
    class [Error] and [UnknownTimeZoneError], [InvalidTimeError],
    [AmbiguousTimeError], [NonExistentTimeError]; it has no other class, so
    any other attribute, [PytzError] among them, is an AttributeError. *)
Definition pytz_exceptions (attr : string) : result (exn -> bool) :=
  if (String.eqb attr "Error" || String.eqb attr "UnknownTimeZoneError")%bool
  then Ok (fun e => match e with UnknownTimeZoneError => true | _ => false end)
  else if (String.eqb attr "InvalidTimeError"
           || String.eqb attr "AmbiguousTimeError"
           || String.eqb attr "NonExistentTimeError")%bool
  then Ok (fun _ => false)
  else Raise AttributeError.

Declare Scope result_scope.
Delimit Scope result_scope with result.
Notation "x <- c ;; k" := (rbind c (fun x => k))
  (at level 61, c at next level, right associativity) : result_scope.

(** *** binary64 floats

    Python's [float] is IEEE 754 binary64; the standard library's
    [spec_float] at precision 53 and maximal exponent 1024 is its
    executable specification. *)

Definition prec : Z := 53.
Definition emax : Z := 1024.

Definition float : Type := spec_float.

Definition is_finite (x : float) : bool :=
  match x with
  | S754_zero _ | S754_finite _ _ _ => true
  | _ => false
  end.

(** A well-formed binary64 datum: finite values carry a canonical mantissa. *)
Definition valid (x : float) : bool := valid_binary prec emax x.

(** [x / y] on floats whose divisor is not zero. *)
Definition fdiv (x y : float) : float := SFdiv prec emax x y.

(** [float(n)] for an int: the nearest double, ties to even; ints beyond the
    binary64 range raise OverflowError. *)
Definition float_of_int (n : Z) : result float :=
  match binary_normalize prec emax n 0 false with
  | S754_infinity _ => Raise OverflowError
  | f => Ok f
  end.

(** The literal [22.5] = 45 * 2^47 * 2^-48. *)
Definition f22_5 : float := S754_finite false 6333186975989760 (-48).

(** Round the fraction [n / d] (with [0 < d]) to the nearest integer, ties to
    the even one. *)
Definition round_half_even (n d : Z) : Z :=
  let q := n / d in
  let r := n mod d in
  match 2 * r ?= d with
  | Lt => q
  | Gt => q + 1
  | Eq => if Z.even q then q else q + 1
  end.

(** [round(x)] with one argument on a float: an int, ties to even; NaN and
    the infinities raise. *)
Definition round (x : float) : result Z :=
  match x with
  | S754_nan => Raise ValueError
  | S754_infinity _ => Raise OverflowError
  | S754_zero _ => Ok 0
  | S754_finite s m e =>
      let sm := cond_Zopp s (Zpos m) in
      Ok (match e with
          | Zneg p => round_half_even sm (Z.pow_pos 2 p)
          | _ => sm * 2 ^ e
          end)
  end.

(** The exact rational value of a finite float. *)
Definition F2Q (x : float) : Q :=
  match x with
  | S754_finite s m e =>
      match e with
      | Zneg p => Qmake (cond_Zopp s (Zpos m)) (Pos.pow 2 p)
      | _ => inject_Z (cond_Zopp s (Zpos m) * 2 ^ e)
      end
  | _ => 0%Q
  end.

(** *** JSON values as Python objects ([response.json()]) *)

Inductive json : Type :=
| JNull
| JBool (b : bool)
| JInt (n : Z)
| JFloat (f : float)
| JStr (s : string)
| JList (l : list json)
| JDict (d : list (string * json)).

(** Truth value of an object ([if x], [not x], [x or y]). *)
Definition truthy (v : json) : bool :=
  match v with
  | JNull => false
  | JBool b => b
  | JInt n => negb (n =? 0)
  | JFloat f => match f with S754_zero _ => false | _ => true end
  | JStr s => negb (String.eqb s EmptyString)
  | JList l => match l with [] => false | _ => true end
  | JDict d => match d with [] => false | _ => true end
  end.

Fixpoint dict_get (d : list (string * json)) (k : string) : option json :=
  match d with
  | [] => None
  | (k', v) :: d' => if String.eqb k' k then Some v else dict_get d' k
  end.

Fixpoint is_prefix (p s : string) : bool :=
  match p, s with
  | EmptyString, _ => true
  | String a p', String b s' => Ascii.eqb a b && is_prefix p' s'
  | String _ _, EmptyString => false
  end.

Fixpoint is_substring (p s : string) : bool :=
  is_prefix p s ||
  match s with
  | EmptyString => false
  | String _ s' => is_substring p s'
  end.

(** [k in v] for a string [k]. *)
Definition contains_str (v : json) (k : string) : result bool :=
  match v with
  | JDict d => Ok (match dict_get d k with Some _ => true | None => false end)
  | JList l =>
      Ok (existsb (fun x => match x with
                            | JStr s => String.eqb s k
                            | _ => false
                            end) l)
  | JStr s => Ok (is_substring k s)
  | _ => Raise TypeError
  end.

(** [v[k]] for a string [k]. *)
Definition getitem_str (v : json) (k : string) : result json :=
  match v with
  | JDict d => match dict_get d k with
               | Some x => Ok x
               | None => Raise KeyError
               end
  | _ => Raise TypeError
  end.

(** [v[0]]. *)
Definition getitem_0 (v : json) : result json :=
  match v with
  | JList l => match l with
               | x :: _ => Ok x
               | [] => Raise IndexError
               end
  | JStr s => match s with
              | String a _ => Ok (JStr (String a EmptyString))
              | EmptyString => Raise IndexError
              end
  | JDict _ => Raise KeyError
  | _ => Raise TypeError
  end.

(** The objects a [for] loop draws from [v]. *)
Fixpoint chars (s : string) : list json :=
  match s with
  | EmptyString => []
  | String a s' => JStr (String a EmptyString) :: chars s'
  end.

Definition iterate (v : json) : result (list json) :=
  match v with
  | JList l => Ok l
  | JDict d => Ok (map (fun kv => JStr (fst kv)) d)
  | JStr s => Ok (chars s)
  | _ => Raise TypeError
  end.

(** The float operand of an arithmetic operation ([x / 22.5]): ints and
    bools are converted, other objects are a TypeError. *)
Definition as_float_operand (v : json) : result float :=
  match v with
  | JFloat f => Ok f
  | JInt n => float_of_int n
  | JBool b => float_of_int (if b then 1 else 0)
  | _ => Raise TypeError
  end.

(** [x / y] where [y] is a non-zero float literal. *)
Definition truediv (x : json) (y : float) : result float :=
  (fx <- as_float_operand x ;; Ok (fdiv fx y))%result.

(** [l[i]] for a list of strings and an int in range. *)
Definition list_getitem (l : list string) (i : Z) : result string :=
  let j := if i <? 0 then i + Z.of_nat (List.length l) else i in
  if (0 <=? j) && (j <? Z.of_nat (List.length l))
  then Ok (nth (Z.to_nat j) l EmptyString)
  else Raise IndexError.

(** [s.strip()] on ASCII text: the ASCII whitespace characters (tab to
    carriage return, the four separators, space) removed at both ends.
    Python also strips the whitespace beyond ASCII (U+0085, U+00A0,
    U+2003, ...); the statements that depend on what is stripped are about
    lines of ASCII text. *)
Definition is_space (a : ascii) : bool :=
  let n := nat_of_ascii a in
  ((9 <=? n) && (n <=? 13) || (28 <=? n) && (n <=? 32))%nat.

Fixpoint lstrip (s : string) : string :=
  match s with
  | String a s' => if is_space a then lstrip s' else s
  | EmptyString => EmptyString
  end.

Fixpoint rstrip (s : string) : string :=
  match s with
  | String a s' =>
      match rstrip s' with
      | EmptyString => if is_space a then EmptyString
                       else String a EmptyString
      | t => String a t
      end
  | EmptyString => EmptyString
  end.

Definition strip (s : string) : string := rstrip (lstrip s).

End Py.

(* ================================================================== *)
(** ** The environment of a run *)

Module Env.
Import Py.
Local Open Scope string_scope.

(** What [Nominatim.geocode] returns on a match. *)
Record location_data : Type := {
  address : string;
  latitude : float;
  longitude : float
}.

(** The two N2YO requests, by the parameters put in their URL. *)
Inductive request : Type :=
| GetPositions (satellite : Z) (obs_lat obs_lng obs_alt seconds : Z)
               (api_key : option string)
| GetVisualPasses (satellite : Z) (lat lng : float) (alt days min_visibility : Z)
                  (api_key : option string).

(** A [requests.Response]: the status, and what [response.json()] makes of
    the body: the decoded value, or the exception it raises (requests'
    JSONDecodeError for a body that is not JSON; a plain ValueError or a
    RecursionError where the decoder gives up on a body that is). *)
Record response : Type := {
  status_code : Z;
  body : result json
}.

Inductive tzinfo : Type :=
| UTC
| Zone (name : string).

(** A timezone-aware [datetime]: an instant (microseconds since the epoch)
    and the zone it is shown in. *)
Record datetime : Type := {
  instant : Z;
  tz : tzinfo
}.

(** Everything outside main.py that a run depends on: the collaborators'
    answers and the library functions that render values as text. *)
Record world : Type := {
  (** [Nominatim(user_agent=...).geocode(query)]: a match, no match
      ([None]), or an exception of geopy. *)
  geocode : string -> result (option location_data);
  (** [TimezoneFinder().timezone_at(lat=, lng=)]: an IANA name, [None], or
      the exception raised for coordinates it does not accept. *)
  timezone_at : float -> float -> result (option string);
  (** [requests.get(url)]: a response or an exception. *)
  http_get : request -> result response;
  (** Whether [pytz.timezone(name)] knows the name. *)
  pytz_knows : string -> bool;
  (** [datetime.fromtimestamp(v, tz=pytz.UTC)]: the instant, or the
      exception raised for a value that is no timestamp or is out of range. *)
  fromtimestamp : json -> result Z;
  (** Whether the local time of an instant in a zone lies within the years
      1 to 9999 that a [datetime] holds. *)
  representable : Z -> tzinfo -> bool;
  (** [dt.strftime(format)]. *)
  strftime : datetime -> string -> string;
  (** [str(v)], as an f-string field does. *)
  str : json -> string;
  (** [str(e)] for a caught exception. *)
  exn_str : exn -> string;
  (** [f"{x:.Nf}"]. *)
  format_fixed : nat -> float -> string;
  (** [float(s)] for a string: [None] when [s] is no float literal. *)
  float_of_string : string -> option float
}.

(** What a run does to the outside, in order. *)
Inductive event : Type :=
| Print (text : string)
| Input (prompt : string)
| Sleep (seconds : Z)
| Geocode (query : string)
| TimezoneAt (lat lng : float)
| HttpGet (r : request).

Definition is_network (ev : event) : bool :=
  match ev with
  | Geocode _ | HttpGet _ => true
  | _ => false
  end.

Definition is_prompt (ev : event) : bool :=
  match ev with
  | Input _ => true
  | _ => false
  end.

(** The lines still to be read on stdin and the events so far. *)
Record state : Type := {
  stdin : list string;
  trace : list event
}.

(** Effectful code: it returns or raises, and leaves a state behind. *)
Definition M (A : Type) : Type := state -> result A * state.

Definition ret {A} (a : A) : M A := fun st => (Ok a, st).

Definition raise {A} (e : exn) : M A := fun st => (Raise e, st).

Definition bind {A B} (m : M A) (k : A -> M B) : M B :=
  fun st =>
    match m st with
    | (Ok a, st') => k a st'
    | (Raise e, st') => (Raise e, st')
    end.

Definition lift {A} (r : result A) : M A := fun st => (r, st).

Definition emit (ev : event) : M unit :=
  fun st => (Ok tt, {| stdin := stdin st; trace := (trace st ++ [ev])%list |}).

(** [try: body except ...]: [handler e] is the body of the first clause
    that matches [e], if any. *)
Definition try_except {A} (body : M A) (handler : exn -> option (M A)) : M A :=
  fun st =>
    match body st with
    | (Ok a, st') => (Ok a, st')
    | (Raise e, st') =>
        match handler e with
        | Some h => h st'
        | None => (Raise e, st')
        end
    end.

(** [try: body except <class> as e: handler] with one clause whose class is
    an attribute looked up in a module.  Python evaluates the class
    expression when an exception reaches the clause, not before; if that
    evaluation raises, its exception replaces the one being handled. *)
Definition try_except_as {A} (body : M A) (class : result (exn -> bool))
    (handler : exn -> M A) : M A :=
  fun st =>
    match body st with
    | (Ok a, st') => (Ok a, st')
    | (Raise e, st') =>
        match class with
        | Ok matches => if matches e then handler e st' else (Raise e, st')
        | Raise e' => (Raise e', st')
        end
    end.

Declare Scope io_scope.
Delimit Scope io_scope with io.
Notation "x <- c ;; k" := (bind c (fun x => k))
  (at level 61, c at next level, right associativity) : io_scope.
Notation "c ;; k" := (bind c (fun _ => k))
  (at level 61, right associativity) : io_scope.

Definition print (text : string) : M unit := emit (Print text).

(** [input(prompt)]: the next line of stdin, EOFError when there is none. *)
Definition input (prompt : string) : M string :=
  fun st =>
    let tr := (trace st ++ [Input prompt])%list in
    match stdin st with
    | line :: rest => (Ok line, {| stdin := rest; trace := tr |})
    | [] => (Raise EOFError, {| stdin := []; trace := tr |})
    end.

Definition sleep (seconds : Z) : M unit := emit (Sleep seconds).

(** [response.raise_for_status()]: HTTPError on a 4xx or 5xx status. *)
Definition raise_for_status (r : response) : result unit :=
  if ((400 <=? status_code r) && (status_code r <? 600))%Z
  then Raise HTTPError
  else Ok tt.

(** [response.json()]. *)
Definition response_json (r : response) : result json := body r.

(** [TimezoneFinder.timezone_at] over the zone data [zones]: the arguments
    are validated first, and a longitude outside [-180, 180], a latitude
    outside [-90, 90] or a NaN is a ValueError. *)
Definition in_bounds (lat lng : float) : bool :=
  let literal n := binary_normalize prec emax n 0 false in
  SFleb (literal (-180)) lng && SFleb lng (literal 180)
  && SFleb (literal (-90)) lat && SFleb lat (literal 90).

Definition timezonefinder (zones : float -> float -> option string)
    (lat lng : float) : result (option string) :=
  if in_bounds lat lng then Ok (zones lat lng) else Raise ValueError.

(** [float(v)]. *)
Definition py_float (w : world) (v : json) : result float :=
  match v with
  | JFloat f => Ok f
  | JInt n => float_of_int n
  | JBool b => float_of_int (if b then 1 else 0)
  | JStr s => match float_of_string w s with
              | Some f => Ok f
              | None => Raise ValueError
              end
  | _ => Raise TypeError
  end.

(** [pytz.timezone(name)]. *)
Definition pytz_timezone (w : world) (name : string) : result tzinfo :=
  if pytz_knows w name then Ok (Zone name) else Raise UnknownTimeZoneError.

End Env.

(* ================================================================== *)
(** ** main.py *)

Module Iss.
Import Py Env.
Local Open Scope string_scope.

Definition nl : string := String (ascii_of_nat 10) EmptyString.

(** [DEFAULT_CITY], [DEFAULT_COORDS]: the doubles nearest to 34.052235 and
    118.243683 (the quotient of two exact doubles is correctly rounded). *)
Definition DEFAULT_CITY : string := "Los Angeles".

Definition DEFAULT_latitude : float :=
  Eval vm_compute in
    fdiv (binary_normalize prec emax 34052235 0 false)
         (binary_normalize prec emax 1000000 0 false).

Definition DEFAULT_longitude : float :=
  Eval vm_compute in
    SFopp (fdiv (binary_normalize prec emax 118243683 0 false)
                (binary_normalize prec emax 1000000 0 false)).

Definition SATELLITE_ID : Z := 25544.

Section Program.

(** [N2YO_API_KEY = os.getenv("N2YO_API_KEY")] and the world of the run. *)
Variable N2YO_API_KEY : option string.
Variable w : world.

Local Open Scope io_scope.

(** [get_user_location()]. *)
Definition get_user_location : M (option string) :=
  print (nl ++ "Enter location details (press Enter for Los Angeles):") ;;
  city <- input "City: " ;;
  let city := strip city in
  if String.eqb city "" then ret None
  else
    state <- input "State (optional, press Enter to skip): " ;;
    let state := strip state in
    country <- input "Country (optional, press Enter for USA): " ;;
    let country := if String.eqb (strip country) "" then "USA"
                   else strip country in
    let location := city in
    let location := if String.eqb state "" then location
                    else location ++ ", " ++ state in
    let location := if String.eqb country "" then location
                    else location ++ ", " ++ country in
    ret (Some location).

Definition default_location : float * float * string :=
  (DEFAULT_latitude, DEFAULT_longitude, DEFAULT_CITY).

(** [get_city_coordinates(location=None)]. *)
Definition get_city_coordinates (location : option string)
  : M (float * float * string) :=
  match location with
  | None | Some "" =>
      print (nl ++ "Using default location: " ++ DEFAULT_CITY) ;;
      ret default_location
  | Some location =>
      try_except
        (emit (Geocode location) ;;
         location_data <- lift (geocode w location) ;;
         match location_data with
         | Some ld =>
             print (nl ++ "Found location: " ++ address ld) ;;
             ret (latitude ld, longitude ld, address ld)
         | None =>
             print (nl ++ "Could not find coordinates for " ++ location
                       ++ ", using Los Angeles as default") ;;
             ret default_location
         end)
        (fun e =>
           if is_GeocoderTimedOut_or_Unavailable e
           then Some (print (nl ++ "Error getting coordinates: " ++ exn_str w e
                                ++ ". Using Los Angeles as default") ;;
                      ret default_location)
           else None)
  end.

(** [get_timezone_from_coordinates(latitude, longitude)]. *)
Definition get_timezone_from_coordinates (lat lng : float) : M string :=
  emit (TimezoneAt lat lng) ;;
  timezone_str <- lift (timezone_at w lat lng) ;;
  match timezone_str with
  | Some timezone_str =>
      if String.eqb timezone_str "" then ret "America/Los_Angeles"
      else ret timezone_str
  | None => ret "America/Los_Angeles"
  end.

Definition position : Type := option float * option float * option float.

Definition no_position : position := (None, None, None).

(** [get_iss_position()]. *)
Definition get_iss_position : M position :=
  sleep 1 ;;
  try_except
    (let url := GetPositions SATELLITE_ID 0 0 0 1 N2YO_API_KEY in
     emit (HttpGet url) ;;
     response <- lift (http_get w url) ;;
     lift (raise_for_status response) ;;
     data <- lift (response_json response) ;;
     print ("API Response: " ++ str w data) ;;
     has_error <- lift (contains_str data "error") ;;
     if has_error : bool then
       err <- lift (getitem_str data "error") ;;
       print ("API Error: " ++ str w err) ;;
       ret no_position
     else
       has_positions <- lift (contains_str data "positions") ;;
       if negb has_positions then
         print "Unexpected API response format - 'positions' key not found" ;;
         ret no_position
       else
         ps <- lift (getitem_str data "positions") ;;
         if negb (truthy ps) then
           print "No position data returned" ;;
           ret no_position
         else
           ps <- lift (getitem_str data "positions") ;;
           positions <- lift (getitem_0 ps) ;;
           lat <- lift (rbind (getitem_str positions "satlatitude") (py_float w)) ;;
           lng <- lift (rbind (getitem_str positions "satlongitude") (py_float w)) ;;
           alt <- lift (rbind (getitem_str positions "sataltitude") (py_float w)) ;;
           ret (Some lat, Some lng, Some alt))
    (fun e =>
       if is_RequestException e then
         Some (print ("Error getting ISS position: " ++ exn_str w e) ;;
               ret no_position)
       else if is_KeyError_or_IndexError e then
         Some (print ("Error parsing API response: " ++ exn_str w e) ;;
               ret no_position)
       else if is_ValueError e then
         Some (print ("Error converting position values: " ++ exn_str w e) ;;
               ret no_position)
       else None).

(** [get_next_passes(lat, lng, alt=0, days=10)]; the result is the object
    returned, [JNull] for [None]. *)
Definition get_next_passes (lat lng : float) (alt days : Z) : M json :=
  try_except
    (let url := GetVisualPasses SATELLITE_ID lat lng alt days 300 N2YO_API_KEY in
     emit (HttpGet url) ;;
     response <- lift (http_get w url) ;;
     lift (raise_for_status response) ;;
     data <- lift (response_json response) ;;
     lift (getitem_str data "passes"))
    (fun e =>
       if is_RequestException e then
         Some (print ("Error getting pass predictions: " ++ exn_str w e) ;;
               ret JNull)
       else None).

(** The local [directions] of [get_cardinal_direction]. *)
Definition directions : list string :=
  ["N"; "NNE"; "NE"; "ENE"; "E"; "ESE"; "SE"; "SSE";
   "S"; "SSW"; "SW"; "WSW"; "W"; "WNW"; "NW"; "NNW"].

(** [get_cardinal_direction(azimuth)]:
    [index = round(azimuth / 22.5) % 16; return directions[index]]. *)
Definition get_cardinal_direction (azimuth : json) : result string :=
  (q <- truediv azimuth f22_5 ;;
   r <- round q ;;
   let index := r mod 16 in
   list_getitem directions index)%result.

Definition time_format : string := "%Y-%m-%d %I:%M:%S %p %Z".

Definition deg : string := "°".

(** [datetime.fromtimestamp(v, tz=pytz.UTC)]. *)
Definition utc_datetime (v : json) : result datetime :=
  (t <- fromtimestamp w v ;; Ok {| instant := t; tz := UTC |})%result.

(** [dt.astimezone(zone)]: OverflowError when the local time leaves the
    years that a [datetime] holds. *)
Definition astimezone (dt : datetime) (zone : tzinfo) : result datetime :=
  if representable w (instant dt) zone
  then Ok {| instant := instant dt; tz := zone |}
  else Raise OverflowError.

(** [format_pass_info(pass_data, timezone_str)].  The fields of the
    f-string are evaluated from left to right, each [pass_data[...]] anew.
    The clause is [except pytz.exceptions.PytzError as e]: its class is the
    attribute [PytzError] of [pytz.exceptions], looked up when an exception
    leaves the [try] body. *)
Definition format_pass_info (pass_data : json) (timezone_str : string)
  : M string :=
  try_except_as
    (local_timezone <- lift (pytz_timezone w timezone_str) ;;
     start_time <- lift (rbind (rbind (getitem_str pass_data "startUTC")
                                      utc_datetime)
                               (fun dt => astimezone dt local_timezone)) ;;
     end_time <- lift (rbind (rbind (getitem_str pass_data "endUTC")
                                    utc_datetime)
                             (fun dt => astimezone dt local_timezone)) ;;
     let s1 := strftime w start_time time_format in
     startAz <- lift (getitem_str pass_data "startAz") ;;
     startAz' <- lift (getitem_str pass_data "startAz") ;;
     d1 <- lift (get_cardinal_direction startAz') ;;
     maxEl <- lift (getitem_str pass_data "maxEl") ;;
     endAz <- lift (getitem_str pass_data "endAz") ;;
     endAz' <- lift (getitem_str pass_data "endAz") ;;
     d2 <- lift (get_cardinal_direction endAz') ;;
     let s2 := strftime w end_time time_format in
     duration <- lift (getitem_str pass_data "duration") ;;
     startAz'' <- lift (getitem_str pass_data "startAz") ;;
     d3 <- lift (get_cardinal_direction startAz'') ;;
     let s3 := strftime w start_time "%I:%M %p" in
     maxEl' <- lift (getitem_str pass_data "maxEl") ;;
     endAz'' <- lift (getitem_str pass_data "endAz") ;;
     d4 <- lift (get_cardinal_direction endAz'') ;;
     ret ("Start: " ++ s1 ++ nl
          ++ "Starting direction: " ++ str w startAz ++ deg
          ++ " (" ++ d1 ++ ")" ++ nl
          ++ "Maximum Elevation: " ++ str w maxEl ++ deg ++ nl
          ++ "Ending direction: " ++ str w endAz ++ deg
          ++ " (" ++ d2 ++ ")" ++ nl
          ++ "End: " ++ s2 ++ nl
          ++ "Duration: " ++ str w duration ++ " seconds" ++ nl
          ++ "Viewing guide: Look " ++ d3 ++ " at " ++ s3 ++ ", "
          ++ "the ISS will rise to " ++ str w maxEl' ++ deg ++ " above horizon "
          ++ "and set " ++ d4))
    (pytz_exceptions "PytzError")
    (fun e =>
       print ("Timezone error: " ++ exn_str w e
              ++ ". Falling back to UTC") ;;
       start_time <- lift (rbind (getitem_str pass_data "startUTC")
                                 utc_datetime) ;;
       end_time <- lift (rbind (getitem_str pass_data "endUTC")
                               utc_datetime) ;;
       ret ("Start: " ++ strftime w start_time time_format ++ nl
            ++ "End: " ++ strftime w end_time time_format ++ nl)).

(** The loop of [main]:
    [for i, pass_data in enumerate(passes, 1): print(...); print(...)]. *)
Fixpoint print_passes (i : Z) (passes : list json) (timezone_str : string)
  : M unit :=
  match passes with
  | [] => ret tt
  | pass_data :: rest =>
      print (nl ++ "Pass " ++ str w (JInt i) ++ ":") ;;
      text <- format_pass_info pass_data timezone_str ;;
      print text ;;
      print_passes (i + 1) rest timezone_str
  end.

(** The last statement of [main]: [if passes: ... else: print(...)]. *)
Definition report_passes (passes : json) (timezone_str : string) : M unit :=
  if truthy passes then
    print (nl ++ "Upcoming visible passes:") ;;
    items <- lift (iterate passes) ;;
    print_passes 1 items timezone_str
  else
    print "No upcoming visible passes found or error fetching pass data".

(** The statement of [main] before it:
    [if all(v is not None for v in (lat, lng, alt)): ... else: print(...)]. *)
Definition report_position (pos : position) : M unit :=
  match pos with
  | (Some lat, Some lng, Some alt) =>
      print (nl ++ "Current ISS Position:") ;;
      print ("Latitude: " ++ format_fixed w 4 lat ++ deg) ;;
      print ("Longitude: " ++ format_fixed w 4 lng ++ deg) ;;
      print ("Altitude: " ++ format_fixed w 2 alt ++ " km")
  | _ => print "Unable to fetch current ISS position"
  end.

(** [main()]. *)
Definition main : M unit :=
  location <- get_user_location ;;
  loc <- get_city_coordinates location ;;
  let '(latitude, longitude, address) := loc in
  timezone_str <- get_timezone_from_coordinates latitude longitude ;;
  print (nl ++ "Location: " ++ address) ;;
  print ("Coordinates: " ++ format_fixed w 4 latitude ++ ", "
         ++ format_fixed w 4 longitude) ;;
  print ("Timezone: " ++ timezone_str) ;;
  print (nl ++ "Fetching ISS position...") ;;
  pos <- get_iss_position ;;
  report_position pos ;;
  print (nl ++ "Fetching upcoming passes...") ;;
  passes <- get_next_passes latitude longitude 0 10 ;;
  report_passes passes timezone_str.

(** The [__main__] guard. *)
Definition program : M unit :=
  match N2YO_API_KEY with
  | None | Some "" =>
      print "Error: N2YO API key not found. Please set the N2YO_API_KEY environment variable."
  | Some _ => main
  end.

End Program.

(** A run from the command line: stdin as given, nothing done yet. *)
Definition run (key : option string) (w : world) (lines : list string)
  : result unit * state :=
  program key w {| stdin := lines; trace := [] |}.

End Iss.

Import Py Env Iss.

(* ================================================================== *)
(** ** Vocabulary of the statements: numbers *)

(** [k] is the integer nearest to [n / d], the even one of two. *)
Definition nearest_even (n d k : Z) : Prop :=
  (2 * k - 1) * d < 2 * n < (2 * k + 1) * d \/
  (2 * n = (2 * k + 1) * d /\ Z.even k = true) \/
  (2 * n = (2 * k - 1) * d /\ Z.even k = true).

(** The shift record [mrs] holds the integer part of [n / d], whether the
    fractional part reaches one half, and whether it is neither zero nor one
    half. *)
Definition represents (mrs : shr_record) (n d : Z) : Prop :=
  shr_m mrs = n / d /\
  shr_r mrs = (d <=? 2 * (n mod d)) /\
  shr_s mrs = negb ((n mod d =? 0) || (2 * (n mod d) =? d)).

(** The float that the rounding step returns for the integer mantissa [M]
    at exponent [E]: a mantissa of 2^53 is renormalised, an exponent beyond
    the format overflows. *)
Definition pack (s : bool) (M E : Z) : spec_float :=
  if M =? 0 then S754_zero s
  else if M <? 2 ^ 53
       then if E <=? 971 then S754_finite s (Z.to_pos M) E else S754_infinity s
       else if E + 1 <=? 971 then S754_finite s (Z.to_pos (2 ^ 52)) (E + 1)
            else S754_infinity s.

(** The nearest integer of a rational, ties to even. *)
Definition Qround_half_even (q : Q) : Z :=
  round_half_even (Qnum q) (Zpos (Qden q)).

(** The 16-point compass rose of the specification, starting at N and
    proceeding clockwise. *)
Definition compass_rose : list string :=
  ["N"%string; "NNE"%string; "NE"%string; "ENE"%string;
   "E"%string; "ESE"%string; "SE"%string; "SSE"%string;
   "S"%string; "SSW"%string; "SW"%string; "WSW"%string;
   "W"%string; "WNW"%string; "NW"%string; "NNW"%string].

(** The cardinal direction algorithm in the specification's words, in exact
    arithmetic: divide the azimuth by 22.5, round to the nearest integer,
    reduce modulo 16, index the 16-point rose. *)
Definition cardinalDirection (azimuth : Q) : string :=
  nth (Z.to_nat (Qround_half_even (azimuth / (45 # 2)) mod 16))
      compass_rose EmptyString.

(** A JSON number: an int, or a well-formed finite double. *)
Definition is_number (v : json) : bool :=
  match v with
  | JInt _ => true
  | JFloat f => valid f && is_finite f
  | _ => false
  end.

(** Its exact value. *)
Definition number_value (v : json) : Q :=
  match v with
  | JInt n => inject_Z n
  | JFloat f => F2Q f
  | _ => 0%Q
  end.

(** Below this magnitude a double has at least two fractional bits. *)
Definition magnitude_bound : Q := inject_Z (2 ^ 51).

(** The double a decimal literal [n / 10^k] denotes. *)
Definition decimal (n k : Z) : float :=
  fdiv (binary_normalize prec emax n 0 false)
       (binary_normalize prec emax (10 ^ k) 0 false).

(** The centres of the sixteen sectors: 0, 22.5, 45, ..., 337.5. *)
Definition sector_centres : list json :=
  map (fun i => JFloat (decimal (225 * i) 1))
      [0; 1; 2; 3; 4; 5; 6; 7; 8; 9; 10; 11; 12; 13; 14; 15].

(* ================================================================== *)
(** ** Vocabulary of the statements: runs, responses, pass records *)

Local Open Scope string_scope.

(** The state [st] once the events [evs] have happened. *)
Definition after (st : state) (evs : list event) : state :=
  {| stdin := stdin st; trace := (trace st ++ evs)%list |}.

(** A world in which nothing outside answers: no geocoding match, no
    timezone, no connection, no known zone. *)
Definition offline_world : world := {|
  geocode := fun _ => Ok None;
  timezone_at := timezonefinder (fun _ _ => None);
  http_get := fun _ => Raise ConnectionError;
  pytz_knows := fun _ => false;
  fromtimestamp := fun v => match v with
                            | JInt n => Ok (n * 1000000)%Z
                            | _ => Raise TypeError
                            end;
  representable := fun _ _ => true;
  strftime := fun _ _ => "<time>";
  str := fun _ => "<value>";
  exn_str := fun _ => "<error>";
  format_fixed := fun _ _ => "<number>";
  float_of_string := fun _ => None
|}.

(** [w] with another geocoder, HTTP service, or timezone data. *)
Definition with_geocode (w : world)
    (f : string -> result (option location_data)) : world := {|
  geocode := f;
  timezone_at := timezone_at w;
  http_get := http_get w;
  pytz_knows := pytz_knows w;
  fromtimestamp := fromtimestamp w;
  representable := representable w;
  strftime := strftime w;
  str := str w;
  exn_str := exn_str w;
  format_fixed := format_fixed w;
  float_of_string := float_of_string w
|}.

Definition with_http_get (w : world) (f : request -> result response)
  : world := {|
  geocode := geocode w;
  timezone_at := timezone_at w;
  http_get := f;
  pytz_knows := pytz_knows w;
  fromtimestamp := fromtimestamp w;
  representable := representable w;
  strftime := strftime w;
  str := str w;
  exn_str := exn_str w;
  format_fixed := format_fixed w;
  float_of_string := float_of_string w
|}.

Definition with_timezones (w : world) (tzat : float -> float -> option string)
    (knows : string -> bool) : world := {|
  geocode := geocode w;
  timezone_at := timezonefinder tzat;
  http_get := http_get w;
  pytz_knows := knows;
  fromtimestamp := fromtimestamp w;
  representable := representable w;
  strftime := strftime w;
  str := str w;
  exn_str := exn_str w;
  format_fixed := format_fixed w;
  float_of_string := float_of_string w
|}.

(** The state a run starts in. *)
Definition initial (lines : list string) : state :=
  {| stdin := lines; trace := [] |}.

(** A triple with all three components or none. *)
Definition all_or_nothing (p : position) : bool :=
  match p with
  | (None, None, None) => true
  | (Some _, Some _, Some _) => true
  | _ => false
  end.

(** The request [get_iss_position] sends. *)
Definition positions_request (key : option string) : request :=
  GetPositions SATELLITE_ID 0 0 0 1 key.

(** The three conversions of the [return] statement, in order. *)
Definition position_fields (w : world) (entry : json)
  : result (float * float * float) :=
  (lat <- rbind (getitem_str entry "satlatitude") (py_float w) ;;
   lng <- rbind (getitem_str entry "satlongitude") (py_float w) ;;
   alt <- rbind (getitem_str entry "sataltitude") (py_float w) ;;
   Ok (lat, lng, alt))%result.


(** A position response whose latitude is JSON [null]. *)
Definition null_latitude_response : response := {|
  status_code := 200;
  body := Ok (JDict
    [("info", JDict [("satname", JStr "SPACE STATION"); ("satid", JInt 25544)]);
     ("positions", JList
        [JDict [("satlatitude", JNull);
                ("satlongitude", JFloat (decimal 1359 2));
                ("sataltitude", JFloat (decimal 42021 2))]])])
|}.

(** A well-formed position response. *)
Definition position_response : response := {|
  status_code := 200;
  body := Ok (JDict
    [("info", JDict [("satname", JStr "SPACE STATION"); ("satid", JInt 25544)]);
     ("positions", JList
        [JDict [("satlatitude", JFloat (decimal (-4182) 2));
                ("satlongitude", JFloat (decimal 1359 2));
                ("sataltitude", JFloat (decimal 42021 2))]])])
|}.

(** What N2YO answers when it predicts no visible pass: an object with
    [info] only. *)
Definition no_passes_response : response := {|
  status_code := 200;
  body := Ok (JDict
    [("info", JDict [("satid", JInt 25544); ("satname", JStr "SPACE STATION");
                     ("transactionscount", JInt 1); ("passescount", JInt 0)])])
|}.

(** The N2YO service answering each of the two requests with a fixed
    response. *)
Definition n2yo (positions passes : response) (r : request) : result response :=
  match r with
  | GetPositions _ _ _ _ _ _ => Ok positions
  | GetVisualPasses _ _ _ _ _ _ _ => Ok passes
  end.

(** The request [get_next_passes] sends. *)
Definition passes_request (key : option string) (lat lng : float) (alt days : Z)
  : request :=
  GetVisualPasses SATELLITE_ID lat lng alt days 300 key.




(** An azimuth as the service delivers it: a finite double or an int a
    double holds exactly. *)
Definition is_azimuth (v : json) : bool :=
  match v with
  | JFloat f => valid f && is_finite f
  | JInt n => (Z.abs n <? 2 ^ 53)%Z
  | _ => false
  end.

(** The lines of a pass description. *)
Definition start_line (time : string) : string := "Start: " ++ time.

Definition starting_direction_line (azimuth label : string) : string :=
  "Starting direction: " ++ azimuth ++ deg ++ " (" ++ label ++ ")".

Definition maximum_elevation_line (elevation : string) : string :=
  "Maximum Elevation: " ++ elevation ++ deg.

Definition ending_direction_line (azimuth label : string) : string :=
  "Ending direction: " ++ azimuth ++ deg ++ " (" ++ label ++ ")".

Definition end_line (time : string) : string := "End: " ++ time.

Definition duration_line (seconds : string) : string :=
  "Duration: " ++ seconds ++ " seconds".

Definition viewing_guide_line (from clock elevation to : string) : string :=
  "Viewing guide: Look " ++ from ++ " at " ++ clock ++ ", the ISS will rise to "
  ++ elevation ++ deg ++ " above horizon and set " ++ to.

(** The keys of a pass record and the values a formatter reads. *)
Record pass_fields (w : world) (pass_data : json) : Type := {
  startUTC : json; endUTC : json;
  startAz : json; endAz : json; maxEl : json; duration : json;
  start_instant : Z; end_instant : Z;
  has_startUTC : getitem_str pass_data "startUTC" = Ok startUTC;
  has_endUTC : getitem_str pass_data "endUTC" = Ok endUTC;
  has_startAz : getitem_str pass_data "startAz" = Ok startAz;
  has_endAz : getitem_str pass_data "endAz" = Ok endAz;
  has_maxEl : getitem_str pass_data "maxEl" = Ok maxEl;
  has_duration : getitem_str pass_data "duration" = Ok duration;
  start_ok : fromtimestamp w startUTC = Ok start_instant;
  end_ok : fromtimestamp w endUTC = Ok end_instant;
  startAz_ok : is_azimuth startAz = true;
  endAz_ok : is_azimuth endAz = true
}.

(** One pass as N2YO delivers it, and what a formatter reads of it in
    [offline_world] with a pytz that knows the names [knows] accepts. *)
Definition sample_pass : json :=
  JDict [("startAz", JFloat (decimal 30795 2)); ("startAzCompass", JStr "NW");
         ("startUTC", JInt 1521368025); ("maxEl", JFloat (decimal 1343 2));
         ("endAz", JFloat (decimal 7109 2)); ("endAzCompass", JStr "ENE");
         ("endUTC", JInt 1521368660); ("duration", JInt 485)].

Definition pytz_world (knows : string -> bool) : world :=
  with_timezones offline_world (fun _ _ => None) knows.

Definition sample_pass_fields (knows : string -> bool)
  : pass_fields (pytz_world knows) sample_pass :=
  Build_pass_fields (pytz_world knows) sample_pass
    (JInt 1521368025) (JInt 1521368660)
    (JFloat (decimal 30795 2)) (JFloat (decimal 7109 2))
    (JFloat (decimal 1343 2)) (JInt 485)
    1521368025000000 1521368660000000
    eq_refl eq_refl eq_refl eq_refl eq_refl eq_refl
    eq_refl eq_refl eq_refl eq_refl.

(* ================================================================== *)
(** ** Vocabulary of the statements: prompts, listings, whole runs *)

(** A line of ASCII text, the domain on which [strip] is Python's
    [str.strip]. *)
Definition ascii_text (s : string) : bool :=
  forallb (fun a => (nat_of_ascii a <? 128)%nat) (list_ascii_of_string s).

(** A line of ASCII whitespace only, the empty line included. *)
Fixpoint blank (s : string) : bool :=
  match s with
  | EmptyString => true
  | String a s' => is_space a && blank s'
  end.

(** The location built from the three answers: the parts stripped, a blank
    state left out, a blank country replaced by USA. *)
Definition location_string (city state country : string) : string :=
  strip city
  ++ (if blank state then "" else ", " ++ strip state)
  ++ ", " ++ (if blank country then "USA" else strip country).

(** The banner and the prompts of [get_user_location]. *)
Definition location_banner : event :=
  Print (nl ++ "Enter location details (press Enter for Los Angeles):").

Definition city_prompt : event := Input "City: ".

Definition state_prompt : event :=
  Input "State (optional, press Enter to skip): ".

Definition country_prompt : event :=
  Input "Country (optional, press Enter for USA): ".

(** Stdin that ends before [get_user_location] has its answers: no line at
    all, or a city and fewer than two lines after it. *)
Definition ends_early (lines : list string) : bool :=
  match lines with
  | [] => true
  | city :: more =>
      ascii_text city && negb (blank city) && (List.length more <? 2)%nat
  end.

(** A JSON value that is no container: [null], a boolean or a number. *)
Definition is_scalar (v : json) : bool :=
  match v with
  | JNull | JBool _ | JInt _ | JFloat _ => true
  | _ => false
  end.

(** The keys that [format_pass_info] reads in a pass record. *)
Definition pass_keys : list string :=
  ["startUTC"; "endUTC"; "startAz"; "maxEl"; "endAz"; "duration"].

(** The sample pass without the compass fields of the service. *)
Definition bare_pass : json :=
  JDict [("startAz", JFloat (decimal 30795 2));
         ("startUTC", JInt 1521368025); ("maxEl", JFloat (decimal 1343 2));
         ("endAz", JFloat (decimal 7109 2));
         ("endUTC", JInt 1521368660); ("duration", JInt 485)].

(** [enumerate(l, start)]. *)
Definition enumerate {A} (start : Z) (l : list A) : list (Z * A) :=
  combine (map (fun k => start + Z.of_nat k) (seq 0 (List.length l))) l.

(** What the loop of [main] prints for a pass: its header, then its
    description. *)
Definition pass_header (w : world) (i : Z) : event :=
  Print (nl ++ "Pass " ++ str w (JInt i) ++ ":").

Definition pass_listing (w : world) (numbered : list (Z * string))
  : list event :=
  flat_map (fun it => [pass_header w (fst it); Print (snd it)]) numbered.

Definition passes_banner : event := Print (nl ++ "Upcoming visible passes:").

(** [format_pass_info] returns [text] for the pass, from every state and
    leaving it as it was. *)
Definition formats_to (w : world) (timezone_str : string) (pass_data : json)
    (text : string) : Prop :=
  forall st, format_pass_info w pass_data timezone_str st = (Ok text, st).

(** [w] with another [str]. *)
Definition with_str (w : world) (f : json -> string) : world := {|
  geocode := geocode w;
  timezone_at := timezone_at w;
  http_get := http_get w;
  pytz_knows := pytz_knows w;
  fromtimestamp := fromtimestamp w;
  representable := representable w;
  strftime := strftime w;
  str := f;
  exn_str := exn_str w;
  format_fixed := format_fixed w;
  float_of_string := float_of_string w
|}.

(** A world that knows every zone and writes the first numbers as Python
    does. *)
Definition numbering_world : world :=
  with_str (pytz_world (fun _ => true))
    (fun v => match v with
              | JInt 1 => "1"
              | JInt 2 => "2"
              | JInt 3 => "3"
              | _ => "<value>"
              end).

(** The description of the sample pass in the sample worlds. *)
Definition sample_text : string :=
  Eval vm_compute in
    match fst (format_pass_info numbering_world sample_pass "Europe/Paris"
                 (initial [])) with
    | Ok text => text
    | Raise _ => ""
    end.

(** The prompts of a run so far, in order. *)
Definition prompts (st : state) : list event := filter is_prompt (trace st).

(** From [st] to [st'] nothing was read from stdin and no prompt was
    shown. *)
Definition quiet (st st' : state) : Prop :=
  stdin st' = stdin st /\ prompts st' = prompts st.

(** The network calls of a run so far, in order. *)
Definition network (st : state) : list event := filter is_network (trace st).

(** The network calls of a complete run of [main]: the geocoding query, when
    a location was entered, then the position request, then the pass request
    for the observer's coordinates with the defaults [alt=0, days=10]. *)
Definition session (key : option string) (query : option string)
    (lat lng : float) : list event :=
  (match query with Some q => [Geocode q] | None => [] end
   ++ [HttpGet (positions_request key);
       HttpGet (passes_request key lat lng 0 10)])%list.

(** The query that [get_city_coordinates] sends for a location. *)
Definition query_of (location : option string) : option string :=
  match location with
  | None | Some "" => None
  | Some q => Some q
  end.

(** The position request is answered with a success status and the object
    [data], which has no [error] and whose first position converts to
    [(lat, lng, alt)]. *)
Definition position_answer (w : world) (key : option string) (data : json)
    (lat lng alt : float) : Prop :=
  exists resp d entry more,
    data = JDict d /\
    http_get w (positions_request key) = Ok resp /\
    raise_for_status resp = Ok tt /\
    body resp = Ok data /\
    dict_get d "error" = None /\
    dict_get d "positions" = Some (JList (entry :: more)) /\
    position_fields w entry = Ok (lat, lng, alt).

(** The pass request for [(lat, lng)] is answered with a success status and
    a body whose [passes] is the list [passes]. *)
Definition passes_answer (w : world) (key : option string) (lat lng : float)
    (passes : list json) : Prop :=
  exists resp data,
    http_get w (passes_request key lat lng 0 10) = Ok resp /\
    raise_for_status resp = Ok tt /\
    body resp = Ok data /\
    getitem_str data "passes" = Ok (JList passes).

(** Everything a run does when every collaborator answers, in order. *)
Definition full_report (w : world) (key : option string)
    (query : string) (ld : location_data) (tz : string) (data : json)
    (lat lng alt : float) (texts : list string) : list event :=
  ([location_banner; city_prompt; state_prompt; country_prompt;
    Geocode query;
    Print (nl ++ "Found location: " ++ address ld);
    TimezoneAt (latitude ld) (longitude ld);
    Print (nl ++ "Location: " ++ address ld);
    Print ("Coordinates: " ++ format_fixed w 4 (latitude ld) ++ ", "
           ++ format_fixed w 4 (longitude ld));
    Print ("Timezone: " ++ tz);
    Print (nl ++ "Fetching ISS position...");
    Sleep 1;
    HttpGet (positions_request key);
    Print ("API Response: " ++ str w data);
    Print (nl ++ "Current ISS Position:");
    Print ("Latitude: " ++ format_fixed w 4 lat ++ deg);
    Print ("Longitude: " ++ format_fixed w 4 lng ++ deg);
    Print ("Altitude: " ++ format_fixed w 2 alt ++ " km");
    Print (nl ++ "Fetching upcoming passes...");
    HttpGet (passes_request key (latitude ld) (longitude ld) 0 10);
    passes_banner]
   ++ pass_listing w (enumerate 1 texts))%list.

(** A geocoder match, a pass-prediction response with one pass, and a world
    in which every collaborator answers. *)
Definition paris : location_data := {|
  address := "Paris, France";
  latitude := decimal 488566 4;
  longitude := decimal 23522 4
|}.

Definition passes_response : response := {|
  status_code := 200;
  body := Ok (JDict
    [("info", JDict [("satid", JInt 25544); ("satname", JStr "SPACE STATION");
                     ("transactionscount", JInt 1); ("passescount", JInt 1)]);
     ("passes", JList [sample_pass])])
|}.


Definition answering_world : world :=
  with_timezones
    (with_http_get (with_geocode offline_world (fun _ => Ok (Some paris)))
                   (n2yo position_response passes_response))
    (fun _ _ => Some "Europe/Paris") (fun _ => true).

(** The body of [position_response]. *)
Definition position_data : json :=
  JDict
    [("info", JDict [("satname", JStr "SPACE STATION"); ("satid", JInt 25544)]);
     ("positions", JList
        [JDict [("satlatitude", JFloat (decimal (-4182) 2));
                ("satlongitude", JFloat (decimal 1359 2));
                ("sataltitude", JFloat (decimal 42021 2))]])].









(** The label at position [k] of the rose, counted clockwise from N and
    around. *)
Definition label_at (k : Z) : string :=
  nth (Z.to_nat (k mod 16)) directions EmptyString.

(** [-x] for a number. *)
Definition negated (v : json) : json :=
  match v with
  | JInt n => JInt (- n)
  | JFloat f => JFloat (SFopp f)
  | _ => v
  end.

(** The position of a label in a list. *)
Fixpoint index_of (d : string) (l : list string) : option nat :=
  match l with
  | [] => None
  | x :: l' => if String.eqb x d then Some 0%nat
               else option_map S (index_of d l')
  end.

(** The label as far to the west of north as [d] is to the east, and
    conversely. *)
Definition mirrored (d : string) : string :=
  match index_of d directions with
  | Some i => label_at (- Z.of_nat i)
  | None => d
  end.

(* ================================================================== *)
(** ** Proof automation *)

Ltac decide_comparisons :=
  repeat match goal with
         | |- context [Z.leb ?a ?b] => destruct (Z.leb_spec a b)
         | |- context [Z.eqb ?a ?b] => destruct (Z.eqb_spec a b)
         end;
  cbn [negb orb andb]; try reflexivity; try lia.

Ltac unfold_represents :=
  unfold represents; cbn [shr_record_of_loc shr_m shr_r shr_s].

Ltac case_scrutinee :=
  match goal with
  | |- context [match ?x with _ => _ end] =>
      lazymatch x with
      | context [match _ with _ => _ end] => fail
      | _ => destruct x eqn:?
      end
  end.

Ltac run_position :=
  cbv beta zeta delta [get_iss_position try_except bind sleep emit lift print ret];
  cbn [fst snd stdin trace].

Ltac read_response Hs Hb :=
  rewrite ?Hs; unfold response_json; rewrite ?Hb;
  cbn [contains_str getitem_str fst snd].

Ltac run_passes :=
  cbv beta zeta delta [get_next_passes try_except bind emit lift print ret];
  cbn [fst snd stdin trace].

Ltac run_format :=
  cbv beta zeta delta [format_pass_info try_except_as bind emit lift print ret
                       pytz_timezone utc_datetime astimezone];
  cbn [fst snd stdin trace].

Ltac run_format_steps :=
  cbv beta zeta delta [format_pass_info try_except_as bind emit lift print ret
                       pytz_timezone];
  cbn [fst snd stdin trace].

Ltac run_location :=
  cbv beta iota zeta delta [get_user_location bind print emit input ret
                            fst snd stdin trace].

Ltac texts_of l :=
  lazymatch l with
  | @nil _ => constr:(@nil string)
  | Print ?t :: ?r => let r' := texts_of r in constr:(t :: r')
  end.

Ltac give_texts :=
  unfold after; cbn [stdin trace]; rewrite <- ?app_assoc; cbn [app];
  lazymatch goal with
  | |- exists texts,
         {| stdin := _; trace := _ ++ Sleep _ :: HttpGet _ :: ?l |} = _ /\ _ =>
      let t := texts_of l in
      exists t; split; [reflexivity|cbn [List.length]; lia]
  | |- exists texts, {| stdin := _; trace := _ ++ HttpGet _ :: ?l |} = _ /\ _ =>
      let t := texts_of l in
      exists t; split; [reflexivity|cbn [List.length]; lia]
  end.

Ltac case_results :=
  repeat match goal with
  | |- context [match ?r with Ok _ => _ | Raise _ => _ end] =>
      lazymatch r with
      | context [match _ with _ => _ end] => fail
      | _ => destruct r eqn:?
      end
  | |- context [if ?b then _ else _] => destruct b eqn:?
  end.

Local Close Scope string_scope.

(* ================================================================== *)
(** ** Rounding to the nearest integer, ties to even *)

Section RoundHalfEven.

Variables n d : Z.
Hypothesis Hd : 0 < d.

Lemma rhe_cases :
  exists q r, n = d * q + r /\ 0 <= r < d /\
    round_half_even n d =
      match 2 * r ?= d with
      | Lt => q
      | Gt => q + 1
      | Eq => if Z.even q then q else q + 1
      end.
Proof.
  exists (n / d), (n mod d). split; [apply Z.div_mod; lia|].
  split; [apply Z.mod_pos_bound; lia | reflexivity].
Qed.

Lemma rhe_strict (k : Z) :
  (2 * k - 1) * d < 2 * n < (2 * k + 1) * d -> round_half_even n d = k.
Proof.
  intros H. destruct rhe_cases as (q & r & Hn & Hr & ->).
  assert (Hq : q = k \/ q + 1 = k \/ q + 1 < k \/ k < q) by lia.
  destruct (Z.compare_spec (2 * r) d); [destruct (Z.even q)| |];
    destruct Hq as [Hq|[Hq|[Hq|Hq]]]; nia.
Qed.

Lemma rhe_tie (k : Z) :
  2 * n = (2 * k + 1) * d ->
  round_half_even n d = if Z.even k then k else k + 1.
Proof.
  intros H. destruct rhe_cases as (q & r & Hn & Hr & ->).
  assert (q = k) by nia. subst q.
  destruct (Z.compare_spec (2 * r) d); [reflexivity| |]; nia.
Qed.

Lemma rhe_error :
  - d <= 2 * (n - round_half_even n d * d) <= d.
Proof.
  destruct rhe_cases as (q & r & Hn & Hr & ->).
  destruct (Z.compare_spec (2 * r) d); [destruct (Z.even q)| |]; nia.
Qed.

Lemma rhe_nearest_even : nearest_even n d (round_half_even n d).
Proof.
  unfold nearest_even.
  destruct rhe_cases as (q & r & Hn & Hr & ->).
  destruct (Z.compare_spec (2 * r) d) as [E|E|E].
  - destruct (Z.even q) eqn:Ev.
    + right; left. split; [nia | exact Ev].
    + right; right. split; [nia|].
      rewrite Z.even_add, Ev. reflexivity.
  - left. nia.
  - left. nia.
Qed.

Lemma nearest_even_rhe (k : Z) :
  nearest_even n d k -> round_half_even n d = k.
Proof.
  intros [H|[[H Ev]|[H Ev]]].
  - apply rhe_strict, H.
  - rewrite (rhe_tie k H), Ev. reflexivity.
  - replace (2 * k - 1) with (2 * (k - 1) + 1) in H by lia.
    rewrite (rhe_tie (k - 1) H).
    replace (Z.even (k - 1)) with false; [lia|].
    rewrite Z.even_sub, Ev. reflexivity.
Qed.

End RoundHalfEven.

Lemma rhe_scale (c n d : Z) :
  0 < c -> 0 < d -> round_half_even (c * n) (c * d) = round_half_even n d.
Proof.
  intros Hc Hd. apply nearest_even_rhe; [nia|].
  destruct (rhe_nearest_even n d Hd) as [H|[[H Ev]|[H Ev]]];
    [left|right; left; split; [|exact Ev]|right; right; split; [|exact Ev]]; nia.
Qed.

Lemma rhe_opp (n d : Z) :
  0 < d -> round_half_even (- n) d = - round_half_even n d.
Proof.
  intros Hd. apply nearest_even_rhe; [lia|].
  assert (Eo : forall k, Z.even (- k) = Z.even k).
  { intros k. rewrite Z.even_opp. reflexivity. }
  destruct (rhe_nearest_even n d Hd) as [H|[[H Ev]|[H Ev]]];
    [left|right; right; split; [|rewrite Eo; exact Ev]
         |right; left; split; [|rewrite Eo; exact Ev]]; nia.
Qed.

Lemma rhe_add_even (n d j : Z) :
  0 < d ->
  round_half_even (n + 2 * j * d) d = round_half_even n d + 2 * j.
Proof.
  intros Hd. apply nearest_even_rhe; [lia|].
  assert (Eo : forall k, Z.even (k + 2 * j) = Z.even k).
  { intros k. rewrite Z.even_add_mul_2. reflexivity. }
  destruct (rhe_nearest_even n d Hd) as [H|[[H Ev]|[H Ev]]];
    [left|right; left; split; [|rewrite Eo; exact Ev]
         |right; right; split; [|rewrite Eo; exact Ev]]; nia.
Qed.

Lemma rhe_exact (k d : Z) : 0 < d -> round_half_even (k * d) d = k.
Proof. intros Hd. apply rhe_strict; nia. Qed.

(** Rounding [n / D] to an integer [M] and then [M / b] to an integer gives
    the rounding of [n / (D * b)], as long as [n / (D * b)] is a half-integer
    or is further than [1 / (2 * b)] from every half-integer. *)
Lemma double_round (n D b : Z) :
  0 < D -> 0 < b -> Z.even b = true ->
  (forall j, Z.odd j = true ->
     2 * n = j * (D * b) \/ D < 2 * n - j * (D * b) \/ D < j * (D * b) - 2 * n) ->
  round_half_even (round_half_even n D) b = round_half_even n (D * b).
Proof.
  intros HD Hb Eb gap.
  assert (HB : 0 < D * b) by nia.
  set (k := round_half_even n (D * b)).
  pose proof (rhe_error n D HD) as Herr.
  set (M := round_half_even n D) in *.
  apply nearest_even_rhe; [exact Hb|].
  assert (odd1 : Z.odd (2 * k - 1) = true).
  { replace (2 * k - 1) with (2 * (k - 1) + 1) by lia. apply Z.odd_odd. }
  assert (odd2 : Z.odd (2 * k + 1) = true) by apply Z.odd_odd.
  assert (tie : forall i, 2 * n = (2 * i + 1) * (D * b) -> 2 * M = (2 * i + 1) * b).
  { intros i Hi. apply Z.even_spec in Eb. destruct Eb as [b' ->].
    assert (Hn : n = ((2 * i + 1) * b') * D) by nia.
    unfold M. rewrite Hn, rhe_exact by exact HD. ring. }
  destruct (rhe_nearest_even n (D * b) HB) as [H|[[H Ev]|[H Ev]]]; fold k in H.
  - left.
    destruct (gap _ odd1) as [G1|[G1|G1]]; [lia| |lia].
    destruct (gap _ odd2) as [G2|[G2|G2]]; [lia|lia|].
    split; apply Z.mul_lt_mono_pos_r with D; try exact HD; nia.
  - right; left. split; [apply tie, H | exact Ev].
  - right; right. split; [|exact Ev].
    replace (2 * k - 1) with (2 * (k - 1) + 1) in * by lia.
    apply tie, H.
Qed.

(* ================================================================== *)
(** ** The rounding step of binary64 operations *)

Lemma shr_1_nonneg (m : Z) (r s : bool) :
  0 <= m ->
  shr_1 (Build_shr_record m r s) = Build_shr_record (m / 2) (Z.odd m) (r || s).
Proof.
  intros Hm. destruct m as [|[p|p|]|]; try lia; cbn [shr_1]; f_equal.
  - apply Z.div_unique with 1; lia.
  - apply Z.div_unique with 0; lia.
Qed.

Lemma divmod_double (n d : Z) :
  0 < d ->
  n / (2 * d) = n / d / 2 /\
  n mod (2 * d) = n mod d + d * (n / d mod 2).
Proof.
  intros Hd.
  pose proof (Z.div_mod n d ltac:(lia)) as Hn.
  pose proof (Z.mod_pos_bound n d Hd) as Hr.
  pose proof (Z.div_mod (n / d) 2 ltac:(lia)) as Hq.
  pose proof (Z.mod_pos_bound (n / d) 2 ltac:(lia)) as Hb.
  assert (H : n = 2 * d * (n / d / 2) + (n mod d + d * (n / d mod 2))) by nia.
  split.
  - symmetry. apply Z.div_unique with (n mod d + d * (n / d mod 2)); [nia|exact H].
  - symmetry. apply Z.mod_unique with (n / d / 2); [nia|exact H].
Qed.

Lemma shr_1_represents (mrs : shr_record) (n d : Z) :
  0 <= n -> 0 < d -> represents mrs n d -> represents (shr_1 mrs) n (2 * d).
Proof.
  intros Hn Hd. destruct mrs as [m r s]. unfold represents. cbn [shr_m shr_r shr_s].
  intros (Hm & Hr & Hs).
  assert (Hm0 : 0 <= m) by (subst m; apply Z.div_pos; lia).
  rewrite shr_1_nonneg by exact Hm0. cbn [shr_m shr_r shr_s].
  destruct (divmod_double n d Hd) as [Hq Hmod].
  pose proof (Z.mod_pos_bound n d Hd) as Hb.
  pose proof (Z.mod_pos_bound (n / d) 2 ltac:(lia)) as Hb2.
  rewrite Hq, Hmod, <- Hm. rewrite <- Hm in Hb2.
  assert (Ho : Z.odd m = (m mod 2 =? 1)).
  { rewrite Zmod_odd. destruct (Z.odd m); reflexivity. }
  rewrite Ho, Hr, Hs.
  assert (Hbit : m mod 2 = 0 \/ m mod 2 = 1) by lia.
  split; [reflexivity|].
  destruct Hbit as [-> | ->]; rewrite ?Z.mul_0_r, ?Z.mul_1_r, ?Z.add_0_r; cbn [Z.eqb];
    split;
    destruct (Z.leb_spec d (2 * (n mod d)));
    destruct (Z.eqb_spec (n mod d) 0);
    destruct (Z.eqb_spec (2 * (n mod d)) d);
    repeat match goal with
           | |- context [Z.leb ?a ?b] => destruct (Z.leb_spec a b)
           | |- context [Z.eqb ?a ?b] => destruct (Z.eqb_spec a b)
           end;
    cbn; try reflexivity; lia.
Qed.

Lemma pow2_xO (p : positive) : 2 ^ Zpos p~0 = 2 ^ Zpos p * 2 ^ Zpos p.
Proof.
  replace (Zpos p~0) with (Zpos p + Zpos p) by lia.
  apply Z.pow_add_r; lia.
Qed.

Lemma pow2_xI (p : positive) : 2 ^ Zpos p~1 = 2 * (2 ^ Zpos p * 2 ^ Zpos p).
Proof.
  replace (Zpos p~1) with (1 + (Zpos p + Zpos p)) by lia.
  rewrite !Z.pow_add_r by lia. reflexivity.
Qed.

Lemma iter_shr_1_represents (n : Z) (p : positive) :
  0 <= n ->
  forall mrs d, 0 < d -> represents mrs n d ->
    represents (iter_pos shr_1 p mrs) n (d * 2 ^ Zpos p).
Proof.
  intros Hn. induction p as [p IH|p IH|]; intros mrs d Hd H; cbn [iter_pos].
  - assert (0 < 2 ^ Zpos p) by (apply Z.pow_pos_nonneg; lia).
    replace (d * 2 ^ Zpos p~1) with (2 * d * 2 ^ Zpos p * 2 ^ Zpos p)
      by (rewrite pow2_xI; ring).
    apply IH; [nia|]. apply IH; [lia|]. apply shr_1_represents; assumption.
  - assert (0 < 2 ^ Zpos p) by (apply Z.pow_pos_nonneg; lia).
    replace (d * 2 ^ Zpos p~0) with (d * 2 ^ Zpos p * 2 ^ Zpos p)
      by (rewrite pow2_xO; ring).
    apply IH; [nia|]. apply IH; assumption.
  - replace (d * 2 ^ 1) with (2 * d) by lia.
    apply shr_1_represents; assumption.
Qed.

Lemma round_nearest_even_represents (mrs : shr_record) (n d : Z) :
  0 < d -> represents mrs n d ->
  round_nearest_even (shr_m mrs) (loc_of_shr_record mrs) = round_half_even n d.
Proof.
  intros Hd. destruct mrs as [m r s]. unfold represents. cbn [shr_m shr_r shr_s].
  intros (-> & -> & ->). unfold round_half_even.
  pose proof (Z.mod_pos_bound n d Hd) as Hb.
  destruct (Z.compare_spec (2 * (n mod d)) d);
    destruct (Z.leb_spec d (2 * (n mod d)));
    destruct (Z.eqb_spec (n mod d) 0);
    destruct (Z.eqb_spec (2 * (n mod d)) d);
    cbn; try reflexivity; lia.
Qed.

Lemma new_location_represents (n d : Z) :
  0 < d ->
  represents (shr_record_of_loc (n / d) (new_location d (n mod d))) n d.
Proof.
  intros Hd. pose proof (Z.mod_pos_bound n d Hd) as Hb.
  unfold new_location, new_location_even, new_location_odd.
  destruct (Z.even d) eqn:Ev.
  - destruct (Z.eqb_spec (n mod d) 0) as [E0|E0].
    + unfold_represents. split; [reflexivity|]. split; decide_comparisons.
    + destruct (Z.compare_spec (2 * (n mod d)) d); unfold_represents;
        (split; [reflexivity|]); split; decide_comparisons.
  - assert (Hodd : 2 * (n mod d) <> d).
    { intros E. rewrite <- E, Z.even_mul in Ev. discriminate. }
    destruct (Z.eqb_spec (n mod d) 0) as [E0|E0].
    + unfold_represents. split; [reflexivity|]. split; decide_comparisons.
    + destruct (Z.compare_spec (2 * (n mod d) + 1) d); unfold_represents;
        (split; [reflexivity|]); split; decide_comparisons.
Qed.

Lemma exact_represents (m : Z) :
  represents (shr_record_of_loc m loc_Exact) m 1.
Proof.
  unfold represents; cbn. rewrite Z.div_1_r, Z.mod_1_r. repeat split.
Qed.

Lemma digits2_pos_size (p : positive) : digits2_pos p = Pos.size p.
Proof. induction p; cbn; congruence. Qed.

Lemma Zdigits2_bounds (m : Z) :
  0 < m -> 2 ^ (Zdigits2 m - 1) <= m < 2 ^ Zdigits2 m.
Proof.
  destruct m as [|p|p]; try lia. intros _. cbn [Zdigits2].
  rewrite digits2_pos_size.
  pose proof (Pos.size_gt p) as Hgt. pose proof (Pos.size_le p) as Hle.
  assert (E : Zpos (2 ^ Pos.size p) = 2 ^ Zpos (Pos.size p)) by apply Pos2Z.inj_pow.
  split.
  - assert (2 ^ Zpos (Pos.size p) = 2 * 2 ^ (Zpos (Pos.size p) - 1)).
    { rewrite <- Z.pow_succ_r by lia. f_equal. lia. }
    lia.
  - lia.
Qed.

Lemma Zdigits2_le (m k : Z) : 0 < m -> m < 2 ^ k -> Zdigits2 m <= k.
Proof.
  intros Hm Hk. destruct (Z.le_gt_cases (Zdigits2 m) k) as [|Hgt]; [assumption|].
  exfalso. pose proof (Zdigits2_bounds m Hm) as [Hlo _].
  assert (0 <= k).
  { destruct (Z.le_gt_cases 0 k); [assumption|].
    rewrite Z.pow_neg_r in Hk by lia. lia. }
  assert (2 ^ k <= 2 ^ (Zdigits2 m - 1)) by (apply Z.pow_le_mono_r; lia).
  lia.
Qed.

Lemma Zdigits2_nonneg (m : Z) : 0 <= Zdigits2 m.
Proof. destruct m; cbn; lia. Qed.

Lemma shr_eq (mrs : shr_record) (e k : Z) :
  shr mrs e k =
  (match k with Zpos p => iter_pos shr_1 p mrs | _ => mrs end, e + Z.max 0 k).
Proof. destruct k; cbn [shr]; f_equal; lia. Qed.

Lemma shr_represents (mrs : shr_record) (e k n d : Z) :
  0 <= n -> 0 < d -> represents mrs n d ->
  represents (fst (shr mrs e k)) n (d * 2 ^ Z.max 0 k).
Proof.
  intros Hn Hd H. rewrite shr_eq. cbn [fst].
  destruct k as [|p|p].
  - cbn. rewrite Z.mul_1_r. exact H.
  - replace (Z.max 0 (Zpos p)) with (Zpos p) by lia.
    apply iter_shr_1_represents; assumption.
  - cbn. rewrite Z.mul_1_r. exact H.
Qed.

Lemma shr_m_of_loc (m : Z) (l : location) : shr_m (shr_record_of_loc m l) = m.
Proof. destruct l as [|[]]; reflexivity. Qed.

Lemma rhe_floor (n d : Z) :
  0 < d -> n / d <= round_half_even n d <= n / d + 1.
Proof.
  intros Hd. unfold round_half_even.
  destruct (2 * (n mod d) ?= d); [destruct (Z.even (n / d))| |]; lia.
Qed.

(** The rounding step [binary_round_aux], applied to the integer part and
    location of [n / d] at exponent [e], rounds [n / d] to nearest-even at the
    exponent [E] of the format. *)
Lemma binary_round_aux_spec (s : bool) (m e : Z) (l : location) (n d : Z) :
  0 <= n -> 0 < d -> represents (shr_record_of_loc m l) n d ->
  let E := Z.max e (fexp prec emax (Zdigits2 m + e)) in
  let M := round_half_even n (d * 2 ^ (E - e)) in
  binary_round_aux prec emax s m e l = pack s M E /\ 0 <= M <= 2 ^ 53.
Proof.
  intros Hn Hd Hrep E M.
  assert (Hm : m = n / d).
  { destruct Hrep as [Hm _]. rewrite shr_m_of_loc in Hm. exact Hm. }
  assert (Hm0 : 0 <= m) by (subst m; apply Z.div_pos; lia).
  assert (HEe : E - e = Z.max 0 (fexp prec emax (Zdigits2 m + e) - e)) by lia.
  assert (Hemin : emin prec emax <= E).
  { unfold E, fexp. lia. }
  assert (Hpow : 0 < 2 ^ (E - e)) by (apply Z.pow_pos_nonneg; lia).
  assert (HD : 0 < d * 2 ^ (E - e)) by nia.
  pose proof (shr_represents (shr_record_of_loc m l) e
                (fexp prec emax (Zdigits2 m + e) - e) n d Hn Hd Hrep) as H1.
  rewrite <- HEe in H1.
  pose proof (round_nearest_even_represents _ _ _ HD H1) as HM. fold M in HM.
  (* the shifted mantissa fits in 53 bits *)
  assert (Hm' : n / (d * 2 ^ (E - e)) < 2 ^ 53).
  { rewrite <- Z.div_div by lia. rewrite <- Hm.
    apply Z.div_lt_upper_bound; [exact Hpow|].
    destruct (Z.eq_dec m 0) as [->|Hne]; [nia|].
    pose proof (Zdigits2_bounds m ltac:(lia)) as [_ Hhi].
    assert (Hle : Zdigits2 m <= (E - e) + 53).
    { unfold E, fexp, emin, prec, emax in *. lia. }
    pose proof (Zdigits2_nonneg m).
    assert (2 ^ Zdigits2 m <= 2 ^ (E - e + 53)) by (apply Z.pow_le_mono_r; lia).
    rewrite Z.pow_add_r in * by lia. lia. }
  pose proof (rhe_floor n (d * 2 ^ (E - e)) HD) as Hfl. fold M in Hfl.
  assert (0 <= n / (d * 2 ^ (E - e))) by (apply Z.div_pos; lia).
  split; [|lia].
  unfold binary_round_aux, shr_fexp.
  rewrite (surjective_pairing (shr (shr_record_of_loc m l) e _)).
  rewrite HM.
  assert (Hsnd : snd (shr (shr_record_of_loc m l) e
                       (fexp prec emax (Zdigits2 m + e) - e)) = E).
  { rewrite shr_eq. cbn [snd]. lia. }
  rewrite Hsnd.
  rewrite shr_eq. unfold pack.
  destruct (Z.eqb_spec M 0) as [M0|M0].
  - rewrite M0. cbn [Zdigits2].
    assert (Hk : fexp prec emax (0 + E) - E <= 0) by (unfold fexp, emin, prec, emax in *; lia).
    destruct (fexp prec emax (0 + E) - E) eqn:Ek; try lia; reflexivity.
  - destruct (Z.ltb_spec M (2 ^ 53)) as [Mlt|Mge].
    + assert (Hdig : Zdigits2 M <= 53) by (apply Zdigits2_le; lia).
      assert (Hk : fexp prec emax (Zdigits2 M + E) - E <= 0)
        by (unfold fexp, emin, prec, emax in *; lia).
      destruct (fexp prec emax (Zdigits2 M + E) - E) eqn:Ek; try lia;
        cbn [shr_record_of_loc shr_m];
        destruct M as [|pm|pm]; try lia; cbn [Z.to_pos];
        replace (E + Z.max 0 _) with E by lia; reflexivity.
    + assert (M = 2 ^ 53) by lia. subst M. rewrite H0.
      assert (Hk : fexp prec emax (Zdigits2 (2 ^ 53) + E) - E = 1).
      { change (Zdigits2 (2 ^ 53)) with 54. unfold fexp, emin, prec, emax in *. lia. }
      rewrite Hk. cbn [iter_pos shr_record_of_loc].
      replace (E + Z.max 0 1) with (E + 1) by lia. reflexivity.
Qed.

(* ================================================================== *)
(** ** Division by 22.5 and conversion of ints *)

Lemma valid_finite (s : bool) (m : positive) (e : Z) :
  valid (S754_finite s m e) = true ->
  Zdigits2 (Zpos m) <= 53 /\ -1074 <= e <= 971 /\
  (Zdigits2 (Zpos m) = 53 \/ e = -1074).
Proof.
  unfold valid, valid_binary, bounded, canonical_mantissa.
  intros H. apply andb_prop in H. destruct H as [H1 H2].
  apply Z.eqb_eq in H1. apply Z.leb_le in H2.
  cbn [Zdigits2]. unfold fexp, emin, prec, emax in *. lia.
Qed.

Lemma round_pack (s : bool) (M E : Z) :
  E <= -1 -> 0 <= M <= 2 ^ 53 ->
  round (pack s M E) = Ok (round_half_even (cond_Zopp s M) (2 ^ (- E))).
Proof.
  intros HE HM. unfold pack.
  assert (Hb : 0 < 2 ^ (- E)) by (apply Z.pow_pos_nonneg; lia).
  destruct (Z.eqb_spec M 0) as [->|M0].
  - cbn [round]. f_equal. destruct s; cbn [cond_Zopp Z.opp];
      symmetry; apply (rhe_exact 0); exact Hb.
  - destruct (Z.ltb_spec M (2 ^ 53)) as [Mlt|Mge].
    + destruct (Z.leb_spec E 971); [|lia]. cbn [round].
      destruct E as [|p|p]; try lia.
      rewrite Z2Pos.id by lia. rewrite Z.pow_pos_fold. reflexivity.
    + assert (M = 2 ^ 53) by lia. subst M.
      destruct (Z.leb_spec (E + 1) 971); [|lia]. cbn [round].
      change (Zpos (Z.to_pos (2 ^ 52))) with (2 ^ 52).
      f_equal.
      assert (Hs : cond_Zopp s (2 ^ 53) = 2 * cond_Zopp s (2 ^ 52)).
      { destruct s; reflexivity. }
      replace (2 ^ (- E)) with (2 * 2 ^ (- (E + 1))).
      2:{ rewrite <- Z.pow_succ_r by lia. f_equal. lia. }
      rewrite Hs, rhe_scale; [|lia|apply Z.pow_pos_nonneg; lia].
      destruct (E + 1) as [|p|p] eqn:E1; try lia.
      * cbn [Z.opp]. rewrite Z.pow_0_r, Z.mul_1_r.
        symmetry. rewrite <- (Z.mul_1_r (cond_Zopp s (2 ^ 52))) at 1.
        apply rhe_exact. lia.
      * rewrite Z.pow_pos_fold. reflexivity.
Qed.

Lemma SFdiv_core_binary_eq (m1 e1 m2 e2 : Z) :
  let e' := Z.min (fexp prec emax (Zdigits2 m1 + e1 - (Zdigits2 m2 + e2)))
                  (e1 - e2) in
  let s := e1 - e2 - e' in
  0 < s ->
  SFdiv_core_binary prec emax m1 e1 m2 e2 =
  ((m1 * 2 ^ s) / m2, e', new_location m2 ((m1 * 2 ^ s) mod m2)).
Proof.
  intros e' s Hs. unfold SFdiv_core_binary. fold e'. fold s.
  destruct s as [|p|p] eqn:Es; try lia.
  rewrite Z.shiftl_mul_pow2 by lia.
  unfold Z.div, Z.modulo.
  destruct (Z.div_eucl (m1 * 2 ^ Zpos p) m2). reflexivity.
Qed.

Lemma pow2_pos (k : Z) : 0 <= k -> 0 < 2 ^ k.
Proof. intros. apply Z.pow_pos_nonneg; lia. Qed.

Lemma pow2_le (a b : Z) : 0 <= a <= b -> 2 ^ a <= 2 ^ b.
Proof. intros. apply Z.pow_le_mono_r; lia. Qed.

(** [x / 22.5] is the exact quotient rounded to nearest-even at the
    exponent of the result; it never overflows. *)
Lemma fdiv_22_5_pack (sx : bool) (mx : positive) (ex : Z) :
  valid (S754_finite sx mx ex) = true ->
  let d1 := Zdigits2 (Zpos mx) in
  let e' := Z.max (d1 + ex - 58) (-1074) in
  let s := ex + 48 - e' in
  let n := Zpos mx * 2 ^ s in
  let d := 6333186975989760 in
  let E := Z.max e' (fexp prec emax (Zdigits2 (n / d) + e')) in
  let M := round_half_even n (d * 2 ^ (E - e')) in
  fdiv (S754_finite sx mx ex) f22_5 = pack sx M E /\
  0 <= M <= 2 ^ 53 /\ e' <= E <= e' + 1.
Proof.
  intros Hv d1 e' s n d E M.
  destruct (valid_finite _ _ _ Hv) as (Hd1 & Hrange & Hcanon).
  pose proof (Zdigits2_bounds (Zpos mx) ltac:(lia)) as [Hmlo Hmhi].
  change (Zdigits2 (Zpos mx)) with d1 in Hmlo, Hmhi, Hd1, Hcanon.
  assert (Hd1pos : 1 <= d1) by (unfold d1; cbn [Zdigits2]; lia).
  assert (Hs : 48 <= s) by (unfold s, e'; lia).
  assert (Hcore : SFdiv_core_binary prec emax (Zpos mx) ex d (-48) =
                  ((Zpos mx * 2 ^ s) / d, e',
                   new_location d ((Zpos mx * 2 ^ s) mod d))).
  { rewrite SFdiv_core_binary_eq.
    - fold d1. change (Zdigits2 d) with 53.
      replace (Z.min (fexp prec emax (d1 + ex - (53 + -48))) (ex - -48)) with e'
        by (unfold e', fexp, emin, prec, emax; lia).
      replace (ex - -48 - e') with s by (unfold s; lia). reflexivity.
    - fold d1. change (Zdigits2 d) with 53.
      unfold fexp, emin, prec, emax; lia. }
  assert (Hn : 0 <= n) by (unfold n; pose proof (pow2_pos s); nia).
  assert (Hd : 0 < d) by (unfold d; lia).
  destruct (binary_round_aux_spec sx (n / d) e' (new_location d (n mod d)) n d
              Hn Hd (new_location_represents n d Hd)) as [Hbra HM].
  assert (Hfdiv : fdiv (S754_finite sx mx ex) f22_5 = pack sx M E).
  { unfold fdiv, f22_5. cbn [SFdiv]. fold d. rewrite Hcore.
    rewrite xorb_false_r. exact Hbra. }
  (* sizes *)
  assert (Hds : d1 + s <= 106) by (unfold s, e'; lia).
  assert (Hnhi : n < 2 ^ (d1 + s)).
  { unfold n. rewrite Z.pow_add_r by lia. pose proof (pow2_pos s). nia. }
  set (k := Z.max 0 (d1 + s - 52)).
  assert (Hq : n / d < 2 ^ k).
  { apply Z.div_lt_upper_bound; [exact Hd|].
    assert (2 ^ (d1 + s) <= 2 ^ (52 + k)) by (apply pow2_le; unfold k; lia).
    rewrite (Z.pow_add_r 2 52 k) in H by (unfold k; lia).
    pose proof (pow2_pos k ltac:(unfold k; lia)).
    assert (2 ^ 52 <= d) by (apply Z.leb_le; reflexivity).
    apply Z.lt_le_trans with (2 ^ 52 * 2 ^ k); [lia|].
    apply Z.mul_le_mono_nonneg_r; lia. }
  assert (Hdq : Zdigits2 (n / d) <= k).
  { assert (0 <= n / d) by (apply Z.div_pos; lia).
    destruct (Z.eq_dec (n / d) 0) as [->|]; [cbn; unfold k; lia|].
    apply Zdigits2_le; lia. }
  assert (HEle : e' <= E <= e' + 1).
  { unfold E, fexp, emin, prec, emax. unfold k, s in Hdq. unfold e' in *. lia. }
  split; [exact Hfdiv|]. split; [exact HM|exact HEle].
Qed.

(** For a double with at least two fractional bits, rounding the float
    quotient [x / 22.5] to an integer gives the same integer as rounding the
    exact quotient: the float rounding never crosses a half-integer. *)
Theorem round_fdiv_22_5 (sx : bool) (mx : positive) (ex : Z) :
  valid (S754_finite sx mx ex) = true -> ex <= -2 ->
  round (fdiv (S754_finite sx mx ex) f22_5) =
  Ok (round_half_even (cond_Zopp sx (2 * Zpos mx)) (45 * 2 ^ (- ex))).
Proof.
  intros Hv Hex.
  destruct (valid_finite _ _ _ Hv) as (Hd1 & Hrange & Hcanon).
  pose proof (Zdigits2_bounds (Zpos mx) ltac:(lia)) as [Hmlo Hmhi].
  destruct (fdiv_22_5_pack sx mx ex Hv) as (Hfdiv & HM & HEle).
  set (d1 := Zdigits2 (Zpos mx)) in *.
  assert (Hd1pos : 1 <= d1) by (unfold d1; cbn [Zdigits2]; lia).
  set (d := 6333186975989760) in *.
  set (e' := Z.max (d1 + ex - 58) (-1074)) in *.
  set (s := ex + 48 - e') in *.
  assert (Hs : 48 <= s) by (unfold s, e'; lia).
  set (n := Zpos mx * 2 ^ s) in *.
  assert (Hn : 0 <= n) by (unfold n; pose proof (pow2_pos s); nia).
  assert (Hd : 0 < d) by (unfold d; lia).
  set (E := Z.max e' (fexp prec emax (Zdigits2 (n / d) + e'))) in *.
  set (M := round_half_even n (d * 2 ^ (E - e'))) in *.
  assert (Hds : d1 + s <= 106) by (unfold s, e'; lia).
  assert (HEneg : E <= -1) by (unfold e' in *; lia).
  rewrite Hfdiv, round_pack by assumption.
  f_equal.
  (* sign *)
  assert (Hsign : forall a b, 0 < b ->
            round_half_even (cond_Zopp sx a) b = cond_Zopp sx (round_half_even a b)).
  { intros a b Hb. destruct sx; cbn [cond_Zopp]; [apply rhe_opp; exact Hb|reflexivity]. }
  rewrite !Hsign by (try apply pow2_pos; pose proof (pow2_pos (- ex)); lia).
  f_equal.
  (* powers of two *)
  set (u := - ex - 2).
  assert (Hu : 0 <= u) by (unfold u; lia).
  set (P1 := 2 ^ (s - 1)). set (U := 2 ^ u).
  assert (HP1 : 2 ^ 47 <= P1) by (apply pow2_le; lia).
  assert (HU : 0 < U) by (apply pow2_pos; lia).
  assert (Hn4 : n = P1 * (2 * Zpos mx)).
  { unfold n, P1. replace s with (1 + (s - 1)) at 1 by lia.
    rewrite Z.pow_add_r by lia. ring. }
  assert (Hex4 : 2 ^ (- ex) = 4 * U).
  { unfold U. replace (- ex) with (2 + u) by (unfold u; lia).
    rewrite Z.pow_add_r by lia. reflexivity. }
  assert (HDb : d * 2 ^ (E - e') * 2 ^ (- E) = P1 * (45 * (4 * U))).
  { rewrite <- Z.mul_assoc, <- Z.pow_add_r by lia.
    change d with (45 * 2 ^ 47). rewrite <- Z.mul_assoc, <- Z.pow_add_r by lia.
    unfold P1, U. rewrite (Z.mul_comm 45 (4 * _)).
    change 4 with (2 ^ 2).
    rewrite <- !Z.pow_add_r by lia.
    rewrite Z.mul_assoc, <- Z.pow_add_r by lia.
    rewrite (Z.mul_comm 45). f_equal. f_equal. unfold u, s. lia. }
  assert (HD : 0 < d * 2 ^ (E - e')) by (pose proof (pow2_pos (E - e')); nia).
  assert (HDle : d * 2 ^ (E - e') <= 2 * d).
  { assert (E - e' = 0 \/ E - e' = 1) as [-> | ->] by lia; cbn; lia. }
  assert (Hbeven : Z.even (2 ^ (- E)) = true).
  { replace (- E) with (Z.succ (- E - 1)) by lia.
    rewrite Z.pow_succ_r by lia. apply Z.even_mul. }
  unfold M.
  rewrite double_round; [| exact HD | apply pow2_pos; lia | exact Hbeven | ].
  - rewrite HDb, Hn4, Hex4. apply rhe_scale; lia.
  - intros j Hj. rewrite HDb.
    assert (Hj0 : j <= -1 \/ 1 <= j).
    { destruct (Z.eq_dec j 0) as [->|]; [discriminate|lia]. }
    rewrite Hn4.
    destruct (Z.eq_dec (Zpos mx) (45 * j * U)) as [Et|Et]; [left; nia|right].
    destruct (Z.le_gt_cases (-1074) (d1 + ex - 58)) as [CA|CB].
    + (* the quotient is in the normal range *)
      assert (s = 106 - d1) by (unfold s, e'; lia).
      assert (2 ^ 52 <= P1) by (apply pow2_le; lia).
      change (2 ^ 52) with 4503599627370496 in *. unfold d in *.
      assert (Ht : Zpos mx - 45 * j * U <= -1 \/ 1 <= Zpos mx - 45 * j * U) by lia.
      destruct Ht; [right|left]; nia.
    + (* the quotient is subnormal *)
      assert (2 ^ 54 <= U) by (apply pow2_le; unfold u; lia).
      assert (Zpos mx < 2 ^ 53).
      { assert (2 ^ d1 <= 2 ^ 53) by (apply pow2_le; lia). lia. }
      change (2 ^ 53) with 9007199254740992 in *.
      change (2 ^ 54) with 18014398509481984 in *.
      change (2 ^ 47) with 140737488355328 in *. unfold d in *.
      destruct Hj0; [left|right]; nia.
Qed.

Lemma round_pack_ok (s : bool) (M E : Z) :
  E + 1 <= 971 -> exists z, round (pack s M E) = Ok z.
Proof.
  intros HE. unfold pack.
  destruct (M =? 0); [eexists; reflexivity|].
  destruct (M <? 2 ^ 53).
  - destruct (Z.leb_spec E 971); [|lia]. eexists; reflexivity.
  - destruct (Z.leb_spec (E + 1) 971); [|lia]. eexists; reflexivity.
Qed.

(** [round(x / 22.5)] returns for every finite double. *)
Lemma round_fdiv_total (x : float) :
  valid x = true -> is_finite x = true ->
  exists z, round (fdiv x f22_5) = Ok z.
Proof.
  intros Hv Hf. destruct x as [s|s| |s m e]; try discriminate.
  - exists 0. reflexivity.
  - destruct (fdiv_22_5_pack s m e Hv) as (-> & _ & HE).
    destruct (valid_finite _ _ _ Hv) as (Hd & Hr & _).
    apply round_pack_ok. lia.
Qed.

Lemma Zdigits2_unique (m k : Z) :
  0 < m -> 2 ^ (k - 1) <= m < 2 ^ k -> Zdigits2 m = k.
Proof.
  intros Hm [Hlo Hhi].
  pose proof (Zdigits2_le m k Hm Hhi) as Hle.
  pose proof (Zdigits2_bounds m Hm) as [_ Hup].
  pose proof (Zdigits2_nonneg m) as Hnn.
  destruct (Z.eq_dec (Zdigits2 m) k) as [|Hne]; [assumption|exfalso].
  assert (2 ^ Zdigits2 m <= 2 ^ (k - 1)) by (apply pow2_le; lia).
  lia.
Qed.

Lemma iter_xO_pow (m d : positive) :
  Zpos (Pos.iter xO m d) = Zpos m * 2 ^ Zpos d.
Proof.
  induction d as [|d IH] using Pos.peano_ind.
  - cbn. lia.
  - rewrite Pos.iter_succ, Pos2Z.inj_xO, IH, Pos2Z.inj_succ, Z.pow_succ_r by lia.
    ring.
Qed.

(** [float(n)] is exact below 2^53: the mantissa is [|n|] shifted to fill
    53 bits. *)
Lemma binary_round_small (s : bool) (m : positive) :
  Zpos m < 2 ^ 53 ->
  let dn := Zdigits2 (Zpos m) in
  binary_round prec emax s m 0 =
  S754_finite s (Z.to_pos (Zpos m * 2 ^ (53 - dn))) (dn - 53).
Proof.
  intros Hm dn.
  pose proof (Zdigits2_bounds (Zpos m) ltac:(lia)) as [Hlo Hhi].
  assert (Hdn : 1 <= dn <= 53).
  { split; [unfold dn; cbn [Zdigits2]; lia|apply Zdigits2_le; lia]. }
  change (Zdigits2 (Zpos m)) with dn in Hlo, Hhi.
  set (c := 2 ^ (53 - dn)).
  assert (Hc : 0 < c) by (apply pow2_pos; lia).
  assert (Hshift : exists mz, shl_align m 0 (fexp prec emax (dn + 0)) = (mz, dn - 53)
                              /\ Zpos mz = Zpos m * c).
  { unfold shl_align.
    replace (fexp prec emax (dn + 0) - 0) with (dn - 53)
      by (unfold fexp, emin, prec, emax; lia).
    replace (fexp prec emax (dn + 0)) with (dn - 53)
      by (unfold fexp, emin, prec, emax; lia).
    destruct (dn - 53) as [|p|p] eqn:Ed; try lia.
    - exists m. split; [reflexivity|]. unfold c.
      replace (53 - dn) with 0 by lia. lia.
    - exists (Pos.iter xO m p). split; [reflexivity|].
      rewrite iter_xO_pow. unfold c. do 2 f_equal. lia. }
  destruct Hshift as (mz & Hal & Hmz).
  unfold binary_round. change (Zpos (digits2_pos m)) with dn. rewrite Hal.
  assert (Hdig : Zdigits2 (Zpos mz) = 53).
  { apply Zdigits2_unique; [lia|]. rewrite Hmz. unfold c.
    assert (E1 : 2 ^ (53 - 1) = 2 ^ (dn - 1) * 2 ^ (53 - dn)).
    { rewrite <- Z.pow_add_r by lia. f_equal. lia. }
    assert (E2 : 2 ^ 53 = 2 ^ dn * 2 ^ (53 - dn)).
    { rewrite <- Z.pow_add_r by lia. f_equal. lia. }
    rewrite E1, E2. fold c. nia. }
  destruct (binary_round_aux_spec s (Zpos mz) (dn - 53) loc_Exact (Zpos mz) 1
              ltac:(lia) ltac:(lia) (exact_represents (Zpos mz))) as [Hbra _].
  rewrite Hbra. rewrite Hdig.
  replace (Z.max (dn - 53) (fexp prec emax (53 + (dn - 53)))) with (dn - 53)
    by (unfold fexp, emin, prec, emax; lia).
  rewrite Z.sub_diag, Z.pow_0_r, Z.mul_1_r.
  rewrite <- (Z.mul_1_r (Zpos mz)) at 1. rewrite rhe_exact by lia.
  unfold pack.
  assert (Hlt : Zpos mz < 2 ^ 53).
  { pose proof (Zdigits2_bounds (Zpos mz) ltac:(lia)) as [_ H].
    rewrite Hdig in H. exact H. }
  destruct (Z.eqb_spec (Zpos mz) 0); [lia|].
  destruct (Z.ltb_spec (Zpos mz) (2 ^ 53)); [|lia].
  destruct (Z.leb_spec (dn - 53) 971); [|lia].
  rewrite <- Hmz. reflexivity.
Qed.

(* ================================================================== *)
(** ** The cardinal direction *)

Lemma Qround_half_even_compat (a b : Q) :
  (a == b)%Q -> Qround_half_even a = Qround_half_even b.
Proof.
  destruct a as [n d], b as [n' d']. unfold Qeq, Qround_half_even. cbn.
  intros H.
  rewrite <- (rhe_scale (Zpos d') n (Zpos d)) by lia.
  rewrite <- (rhe_scale (Zpos d) n' (Zpos d')) by lia.
  f_equal; lia.
Qed.

Lemma Qround_div_22_5 (n : Z) (d : positive) :
  Qround_half_even ((n # d) / (45 # 2)) = round_half_even (2 * n) (45 * Zpos d).
Proof.
  unfold Qround_half_even, Qdiv, Qmult, Qinv. cbn [Qnum Qden].
  f_equal; lia.
Qed.

Lemma Qround_F2Q_div (sx : bool) (mx : positive) (ex : Z) :
  ex < 0 ->
  Qround_half_even (F2Q (S754_finite sx mx ex) / (45 # 2)) =
  round_half_even (cond_Zopp sx (2 * Zpos mx)) (45 * 2 ^ (- ex)).
Proof.
  intros Hex. destruct ex as [|p|p]; try lia. cbn [F2Q].
  rewrite Qround_div_22_5. f_equal.
  - destruct sx; cbn [cond_Zopp]; lia.
  - rewrite Pos2Z.inj_pow. reflexivity.
Qed.

Lemma small_exponent (sx : bool) (mx : positive) (ex : Z) :
  valid (S754_finite sx mx ex) = true ->
  (Qabs (F2Q (S754_finite sx mx ex)) < magnitude_bound)%Q ->
  ex <= -2.
Proof.
  intros Hv Hb. destruct (valid_finite _ _ _ Hv) as (Hd & Hr & Hc).
  destruct (Z.le_gt_cases ex (-2)) as [|Hgt]; [assumption|exfalso].
  destruct Hc as [Hc|Hc]; [|lia].
  pose proof (Zdigits2_bounds (Zpos mx) ltac:(lia)) as [Hlo _].
  rewrite Hc in Hlo. change (2 ^ (53 - 1)) with 4503599627370496 in Hlo.
  apply Qabs_Qlt_condition in Hb. destruct Hb as [Hb1 Hb2].
  unfold magnitude_bound in *. change (2 ^ 51) with 2251799813685248 in *.
  destruct ex as [|p|p].
  - cbn [F2Q] in *. unfold Qlt in *. cbn in Hb1, Hb2.
    destruct sx; cbn [cond_Zopp] in *; lia.
  - cbn [F2Q] in *. unfold Qlt in *. cbn [Qnum Qden inject_Z Qopp] in Hb1, Hb2.
    assert (1 <= 2 ^ Zpos p) by (pose proof (pow2_pos (Zpos p)); lia).
    destruct sx; cbn [cond_Zopp] in *; nia.
  - assert (p = 1%positive) by lia. subst p.
    cbn [F2Q] in *. unfold Qlt in *. cbn in Hb1, Hb2.
    destruct sx; cbn [cond_Zopp] in *; lia.
Qed.

Lemma list_getitem_directions (r : Z) :
  list_getitem directions (r mod 16) =
  Ok (nth (Z.to_nat (r mod 16)) directions EmptyString).
Proof.
  pose proof (Z.mod_pos_bound r 16 ltac:(lia)) as H.
  unfold list_getitem. change (Z.of_nat (List.length directions)) with 16.
  destruct (Z.ltb_spec (r mod 16) 0); [lia|].
  destruct (Z.leb_spec 0 (r mod 16)); [|lia].
  destruct (Z.ltb_spec (r mod 16) 16); [|lia]. reflexivity.
Qed.

Lemma get_cardinal_direction_float (x : float) (z : Z) :
  round (fdiv x f22_5) = Ok z ->
  get_cardinal_direction (JFloat x) =
  Ok (nth (Z.to_nat (z mod 16)) directions EmptyString).
Proof.
  intros H. unfold get_cardinal_direction, truediv. cbn [as_float_operand rbind].
  rewrite H. cbn [rbind]. apply list_getitem_directions.
Qed.

Lemma get_cardinal_direction_int (n : Z) (x : float) (z : Z) :
  float_of_int n = Ok x -> round (fdiv x f22_5) = Ok z ->
  get_cardinal_direction (JInt n) =
  Ok (nth (Z.to_nat (z mod 16)) directions EmptyString).
Proof.
  intros Hx H. unfold get_cardinal_direction, truediv. cbn [as_float_operand].
  rewrite Hx. cbn [rbind]. rewrite H. cbn [rbind]. apply list_getitem_directions.
Qed.

Lemma float_of_int_small (n : Z) :
  n <> 0 -> Z.abs n < 2 ^ 53 ->
  let dn := Zdigits2 n in
  float_of_int n =
  Ok (S754_finite (n <? 0) (Z.to_pos (Z.abs n * 2 ^ (53 - dn))) (dn - 53)).
Proof.
  intros Hn Hb dn. unfold float_of_int, binary_normalize.
  destruct n as [|m|m]; [lia| |].
  - rewrite binary_round_small by exact Hb. reflexivity.
  - rewrite binary_round_small by exact Hb. reflexivity.
Qed.

Lemma float_of_int_valid (n : Z) :
  n <> 0 -> Z.abs n < 2 ^ 53 ->
  let dn := Zdigits2 n in
  valid (S754_finite (n <? 0) (Z.to_pos (Z.abs n * 2 ^ (53 - dn))) (dn - 53))
  = true /\ 1 <= dn <= 53 /\ 2 ^ (dn - 1) <= Z.abs n < 2 ^ dn.
Proof.
  intros Hn Hb dn.
  assert (Hdn : dn = Zdigits2 (Z.abs n)) by (destruct n; reflexivity).
  pose proof (Zdigits2_bounds (Z.abs n) ltac:(lia)) as [Hlo Hhi].
  rewrite <- Hdn in Hlo, Hhi.
  assert (Hr : 1 <= dn <= 53).
  { split; [destruct n; cbn; lia|]. rewrite Hdn. apply Zdigits2_le; lia. }
  split; [|split; [exact Hr|split; assumption]].
  set (c := 2 ^ (53 - dn)).
  assert (Hc : 0 < c) by (apply pow2_pos; lia).
  assert (Hdig : Zdigits2 (Z.abs n * c) = 53).
  { apply Zdigits2_unique; [nia|]. unfold c.
    assert (E1 : 2 ^ (53 - 1) = 2 ^ (dn - 1) * 2 ^ (53 - dn)).
    { rewrite <- Z.pow_add_r by lia. f_equal. lia. }
    assert (E2 : 2 ^ 53 = 2 ^ dn * 2 ^ (53 - dn)).
    { rewrite <- Z.pow_add_r by lia. f_equal. lia. }
    rewrite E1, E2. fold c. nia. }
  unfold valid, valid_binary, bounded, canonical_mantissa.
  assert (Hp : Zpos (digits2_pos (Z.to_pos (Z.abs n * c))) = 53).
  { rewrite <- Hdig. destruct (Z.abs n * c) eqn:E; try nia. reflexivity. }
  rewrite Hp. apply andb_true_intro. split.
  - apply Z.eqb_eq. unfold fexp, emin, prec, emax. lia.
  - apply Z.leb_le. unfold prec, emax. lia.
Qed.

(** The float computation of the index agrees with the exact one. *)
(** The rose of the code is the rose of the specification. *)
Lemma directions_is_compass_rose : directions = compass_rose.
Proof. reflexivity. Qed.

Lemma cardinalDirection_nth (q : Q) :
  cardinalDirection q
  = nth (Z.to_nat (Qround_half_even (q / (45 # 2)) mod 16))
        directions EmptyString.
Proof. unfold cardinalDirection. rewrite directions_is_compass_rose. reflexivity. Qed.

Theorem get_cardinal_direction_exact (azimuth : json) :
  is_number azimuth = true ->
  (Qabs (number_value azimuth) < magnitude_bound)%Q ->
  get_cardinal_direction azimuth = Ok (cardinalDirection (number_value azimuth)).
Proof.
  intros Hnum Hb. destruct azimuth as [| |n|x| | |]; try discriminate.
  - (* int *)
    cbn [number_value] in *. rewrite !cardinalDirection_nth.
    change (inject_Z n) with (n # 1). rewrite Qround_div_22_5.
    destruct (Z.eq_dec n 0) as [->|Hn]; [reflexivity|].
    apply Qabs_Qlt_condition in Hb. unfold magnitude_bound, Qlt in Hb.
    cbn in Hb. change (2 ^ 51) with 2251799813685248 in Hb.
    assert (Habs : Z.abs n < 2 ^ 53).
    { change (2 ^ 53) with 9007199254740992. lia. }
    destruct (float_of_int_valid n Hn Habs) as (Hv & Hdn & Hlo & Hhi).
    pose proof (float_of_int_small n Hn Habs) as Hf. cbv zeta in Hf, Hv.
    set (dn := Zdigits2 n) in *.
    assert (Hdn51 : dn <= 51).
    { destruct (Z.le_gt_cases dn 51); [assumption|exfalso].
      assert (2 ^ 51 <= 2 ^ (dn - 1)) by (apply pow2_le; lia).
      change (2 ^ 51) with 2251799813685248 in *. lia. }
    set (c := 2 ^ (53 - dn)) in *.
    assert (Hc : 0 < c) by (apply pow2_pos; lia).
    rewrite (get_cardinal_direction_int n _ _ Hf
               (round_fdiv_22_5 _ _ _ Hv ltac:(lia))).
    do 4 f_equal.
    rewrite Z2Pos.id by nia.
    replace (- (dn - 53)) with (53 - dn) by lia. fold c.
    rewrite <- (rhe_scale c (2 * n) (45 * 1)) by lia.
    f_equal; [|lia].
    destruct (Z.ltb_spec n 0); cbn [cond_Zopp]; lia.
  - (* float *)
    cbn [is_number number_value] in *. apply andb_prop in Hnum.
    destruct Hnum as [Hv Hf].
    destruct x as [s|s| |sx mx ex]; try discriminate.
    + reflexivity.
    + pose proof (small_exponent sx mx ex Hv Hb) as Hex.
      rewrite (get_cardinal_direction_float _ _ (round_fdiv_22_5 _ _ _ Hv Hex)).
      rewrite !cardinalDirection_nth. rewrite Qround_F2Q_div by lia. reflexivity.
Qed.

Lemma Qround_add_even (q : Q) (j : Z) :
  Qround_half_even (q + inject_Z (2 * j)) = Qround_half_even q + 2 * j.
Proof.
  destruct q as [n d]. unfold Qround_half_even, Qplus, inject_Z.
  cbn [Qnum Qden].
  replace (n * 1 + 2 * j * Zpos d) with (n + 2 * j * Zpos d) by lia.
  replace (Zpos (d * 1)) with (Zpos d) by lia.
  apply rhe_add_even. lia.
Qed.

Lemma cardinalDirection_congruent (a b : Q) (k : Z) :
  (a == b + inject_Z (360 * k))%Q -> cardinalDirection a = cardinalDirection b.
Proof.
  intros H. rewrite !cardinalDirection_nth.
  assert (E : (a / (45 # 2) == b / (45 # 2) + inject_Z (2 * (8 * k)))%Q).
  { rewrite H. rewrite !inject_Z_mult. field. }
  rewrite (Qround_half_even_compat _ _ E), Qround_add_even.
  replace (Qround_half_even (b / (45 # 2)) + 2 * (8 * k))
    with (Qround_half_even (b / (45 # 2)) + k * 16) by lia.
  rewrite Z.mod_add by lia. reflexivity.
Qed.

Lemma cardinalDirection_north_low (a : Q) :
  (0 <= a)%Q -> (a <= 45 # 4)%Q -> cardinalDirection a = "N"%string.
Proof.
  destruct a as [n d]. unfold Qle. cbn [Qnum Qden]. intros H0 H1.
  rewrite !cardinalDirection_nth. rewrite Qround_div_22_5.
  replace (round_half_even (2 * n) (45 * Zpos d)) with 0; [reflexivity|].
  symmetry. apply nearest_even_rhe; [lia|]. unfold nearest_even.
  destruct (Z.eq_dec (n * 4) (45 * Zpos d)); [right; left; split; [lia|reflexivity]|left; lia].
Qed.

Lemma cardinalDirection_north_high (a : Q) :
  (1395 # 4 <= a)%Q -> (a < 360)%Q -> cardinalDirection a = "N"%string.
Proof.
  destruct a as [n d]. unfold Qle, Qlt. cbn [Qnum Qden]. intros H0 H1.
  rewrite !cardinalDirection_nth. rewrite Qround_div_22_5.
  replace (round_half_even (2 * n) (45 * Zpos d)) with 16; [reflexivity|].
  symmetry. apply nearest_even_rhe; [lia|]. unfold nearest_even.
  destruct (Z.eq_dec (n * 4) (1395 * Zpos d)); [right; right; split; [lia|reflexivity]|left; lia].
Qed.

Lemma in_range_bound (a : Q) :
  (0 <= a)%Q -> (a < 360)%Q -> (Qabs a < magnitude_bound)%Q.
Proof.
  intros H0 H1. apply Qabs_Qlt_condition. unfold magnitude_bound.
  change (2 ^ 51) with 2251799813685248.
  split.
  - apply Qlt_le_trans with 0%Q; [reflexivity|exact H0].
  - apply Qlt_trans with 360%Q; [exact H1|reflexivity].
Qed.

(** C1. For every azimuth in [0, 360), an int or a finite double,
    [get_cardinal_direction] returns the label of the specification's recipe
    carried out in exact arithmetic: divide by 22.5, round to the nearest
    integer (a tie goes to the even one, as Python's [round] does), reduce
    modulo 16, index the rose N, NNE, NE, ENE, E, ESE, SE, SSE, S, SSW, SW,
    WSW, W, WNW, NW, NNW of the specification ([compass_rose], spelled out
    on the specification's side).  Every azimuth in [0, 11.25] and in
    [348.75, 360) is labelled N; 0, 45, 348.75, 11.24 and 22.5 are labelled
    N, NE, N, N and NNE; and the sixteen sector centres 0, 22.5, ..., 337.5
    get the sixteen labels of the rose in order. *)
Theorem cardinal_direction_sectors :
  (forall azimuth : json,
      is_number azimuth = true ->
      (0 <= number_value azimuth)%Q -> (number_value azimuth < 360)%Q ->
      get_cardinal_direction azimuth
      = Ok (cardinalDirection (number_value azimuth)) /\
      ((number_value azimuth <= 45 # 4)%Q \/ (1395 # 4 <= number_value azimuth)%Q ->
       get_cardinal_direction azimuth = Ok "N"%string)) /\
  get_cardinal_direction (JInt 0) = Ok "N"%string /\
  get_cardinal_direction (JInt 45) = Ok "NE"%string /\
  get_cardinal_direction (JFloat (decimal 34875 2)) = Ok "N"%string /\
  get_cardinal_direction (JFloat (decimal 1124 2)) = Ok "N"%string /\
  get_cardinal_direction (JFloat (decimal 225 1)) = Ok "NNE"%string /\
  map get_cardinal_direction sector_centres = map Ok compass_rose.
Proof.
  split; [|repeat split; vm_compute; reflexivity].
  intros azimuth Hnum H0 H1.
  pose proof (get_cardinal_direction_exact azimuth Hnum
                (in_range_bound _ H0 H1)) as Hex.
  split; [exact Hex|].
  intros [Hlow|Hhigh]; rewrite Hex; f_equal.
  - apply cardinalDirection_north_low; assumption.
  - apply cardinalDirection_north_high; assumption.
Qed.

(** C1 at 348.75, the lower edge of the sector that wraps around. *)
Lemma cardinal_direction_sectors_witness :
  is_number (JFloat (decimal 34875 2)) = true /\
  get_cardinal_direction (JFloat (decimal 34875 2)) = Ok "N"%string.
Proof.
  split; [reflexivity|].
  apply (proj1 cardinal_direction_sectors (JFloat (decimal 34875 2)));
    [reflexivity|vm_compute; discriminate|vm_compute; reflexivity|].
  right. vm_compute. discriminate.
Defined.

(** C2 as stated fails: the int 12666373951979598 is 78 modulo 360, the
    quotient 12666373951979598 / 22.5 = 562949953421315.4666... is rounded by
    the float division to 562949953421315.5, which [round] takes to the even
    562949953421316, so the label is E, while 78 is labelled ENE. *)
Lemma cardinal_direction_not_periodic :
  get_cardinal_direction (JInt 12666373951979598) = Ok "E"%string /\
  12666373951979598 mod 360 = 78 /\
  get_cardinal_direction (JInt (12666373951979598 mod 360)) = Ok "ENE"%string.
Proof. repeat split; vm_compute; reflexivity. Qed.

Lemma cardinal_direction_congruent (azimuth reduced : json) (k : Z) :
  is_number azimuth = true -> is_number reduced = true ->
  (Qabs (number_value azimuth) < magnitude_bound)%Q ->
  (Qabs (number_value reduced) < magnitude_bound)%Q ->
  (number_value azimuth == number_value reduced + inject_Z (360 * k))%Q ->
  get_cardinal_direction azimuth = get_cardinal_direction reduced.
Proof.
  intros Ha Hr Ba Br Hk.
  rewrite (get_cardinal_direction_exact azimuth Ha Ba).
  rewrite (get_cardinal_direction_exact reduced Hr Br).
  f_equal. apply cardinalDirection_congruent with k. exact Hk.
Qed.

Lemma int_magnitude (n : Z) :
  Z.abs n < 2 ^ 51 -> (Qabs (inject_Z n) < magnitude_bound)%Q.
Proof.
  intros H. apply Qabs_Qlt_condition. unfold magnitude_bound, Qlt. cbn.
  lia.
Qed.

(** C2, amended.  For azimuths of magnitude below 2^51 (ints or finite
    doubles), two azimuths that differ by an integer multiple of 360 get the
    same label; in particular an int azimuth [n] and [n % 360] do. *)
Theorem cardinal_direction_periodic :
  (forall (azimuth reduced : json) (k : Z),
      is_number azimuth = true -> is_number reduced = true ->
      (Qabs (number_value azimuth) < magnitude_bound)%Q ->
      (Qabs (number_value reduced) < magnitude_bound)%Q ->
      (number_value azimuth == number_value reduced + inject_Z (360 * k))%Q ->
      get_cardinal_direction azimuth = get_cardinal_direction reduced) /\
  (forall n : Z,
      Z.abs n < 2 ^ 51 ->
      get_cardinal_direction (JInt n) = get_cardinal_direction (JInt (n mod 360))).
Proof.
  split; [exact cardinal_direction_congruent|].
  intros n Hn.
  pose proof (Z.mod_pos_bound n 360 ltac:(lia)) as Hm.
  apply (cardinal_direction_congruent (JInt n) (JInt (n mod 360)) (n / 360));
    try reflexivity.
  - apply int_magnitude. exact Hn.
  - apply int_magnitude. change (2 ^ 51) with 2251799813685248. lia.
  - cbn [number_value]. rewrite <- inject_Z_plus.
    rewrite Z.add_comm, <- Z.div_mod by lia. reflexivity.
Qed.

(** C2 at -7 and 353, and at 720.25 and 0.25. *)
Lemma cardinal_direction_periodic_witness :
  get_cardinal_direction (JInt (-7)) = get_cardinal_direction (JInt ((-7) mod 360))
  /\ get_cardinal_direction (JFloat (decimal 72025 2))
     = get_cardinal_direction (JFloat (decimal 25 2)).
Proof.
  split.
  - apply (proj2 cardinal_direction_periodic (-7)). reflexivity.
  - apply (proj1 cardinal_direction_periodic
             (JFloat (decimal 72025 2)) (JFloat (decimal 25 2)) 2);
      reflexivity.
Defined.

(* ================================================================== *)
(** ** Collaborators and their failures *)

Local Open Scope string_scope.

(** C9. When the credential is absent ([os.getenv] gives [None]) or empty,
    the whole run is one printed error message: it returns normally, reads
    nothing from stdin, and its trace has no network call and no prompt. *)
Theorem missing_credential_does_nothing (key : option string) (w : world)
    (lines : list string) :
  key = None \/ key = Some "" ->
  run key w lines =
  (Ok tt,
   {| stdin := lines;
      trace := [Print "Error: N2YO API key not found. Please set the N2YO_API_KEY environment variable."] |})
  /\ existsb is_network (trace (snd (run key w lines))) = false
  /\ existsb is_prompt (trace (snd (run key w lines))) = false.
Proof.
  intros [-> | ->]; repeat split.
Qed.

(** C9 in a run whose stdin holds an answer that is never read. *)
Lemma missing_credential_does_nothing_witness :
  existsb is_network (trace (snd (run None offline_world ["Paris"]))) = false.
Proof.
  exact (proj1 (proj2 (missing_credential_does_nothing None offline_world ["Paris"]
                         (or_introl eq_refl)))).
Defined.

(** What [get_timezone_from_coordinates] does with each answer of the
    lookup. *)
Lemma get_timezone_from_coordinates_cases (w : world) (lat lng : float)
    (st : state) :
  get_timezone_from_coordinates w lat lng st
  = (match timezone_at w lat lng with
     | Ok None => Ok "America/Los_Angeles"
     | Ok (Some tz) => if String.eqb tz "" then Ok "America/Los_Angeles"
                       else Ok tz
     | Raise e => Raise e
     end,
     after st [TimezoneAt lat lng]).
Proof.
  unfold get_timezone_from_coordinates, bind, emit, lift, ret, after.
  destruct (timezone_at w lat lng) as [[tz|]|e]; try reflexivity.
  destruct (String.eqb tz ""); reflexivity.
Qed.

(** C8 as stated fails: the function has no handler, and TimezoneFinder
    refuses a latitude of 100 degrees with ValueError, so the call raises
    where the claim promises a timezone. *)
Lemma latitude_out_of_bounds_raises :
  get_timezone_from_coordinates offline_world
    (decimal 1000 1) (decimal 0 1) (initial [])
  = (Raise ValueError,
     after (initial []) [TimezoneAt (decimal 1000 1) (decimal 0 1)]).
Proof. vm_compute. reflexivity. Qed.

(** C8, amended.  When the lookup has no match,
    [get_timezone_from_coordinates] returns "America/Los_Angeles"; on a match
    it returns the matched identifier unchanged; an exception of the lookup
    leaves the function as it came.  With TimezoneFinder as the lookup, the
    function returns a timezone name for every latitude in [-90, 90] and
    longitude in [-180, 180], and raises ValueError for every other pair,
    NaN included. *)
Theorem timezone_fallback (w : world) (lat lng : float) (st : state) :
  let st' := after st [TimezoneAt lat lng] in
  (timezone_at w lat lng = Ok None ->
   get_timezone_from_coordinates w lat lng st
   = (Ok "America/Los_Angeles", st')) /\
  (forall tz, timezone_at w lat lng = Ok (Some tz) -> tz <> "" ->
   get_timezone_from_coordinates w lat lng st = (Ok tz, st')) /\
  (forall e, timezone_at w lat lng = Raise e ->
   get_timezone_from_coordinates w lat lng st = (Raise e, st')) /\
  (forall zones, timezone_at w = timezonefinder zones ->
   if in_bounds lat lng
   then (exists tz, get_timezone_from_coordinates w lat lng st = (Ok tz, st')) /\
        (zones lat lng = None ->
         get_timezone_from_coordinates w lat lng st
         = (Ok "America/Los_Angeles", st')) /\
        (forall tz, zones lat lng = Some tz -> tz <> "" ->
         get_timezone_from_coordinates w lat lng st = (Ok tz, st'))
   else get_timezone_from_coordinates w lat lng st = (Raise ValueError, st')).
Proof.
  cbv zeta. rewrite get_timezone_from_coordinates_cases.
  split; [|split; [|split]].
  - intros ->. reflexivity.
  - intros tz -> Hne. destruct (String.eqb_spec tz ""); [contradiction|reflexivity].
  - intros e ->. reflexivity.
  - intros zones ->. unfold timezonefinder.
    destruct (in_bounds lat lng); [|reflexivity].
    split; [|split].
    + destruct (zones lat lng) as [tz|]; [|eexists; reflexivity].
      destruct (String.eqb tz ""); eexists; reflexivity.
    + intros ->. reflexivity.
    + intros tz -> Hne.
      destruct (String.eqb_spec tz ""); [contradiction|reflexivity].
Qed.

(** C8 with TimezoneFinder as the lookup: a match and no match for the
    default coordinates, and a longitude of 200 degrees. *)
Lemma timezone_fallback_witness :
  get_timezone_from_coordinates
    (with_timezones offline_world (fun _ _ => Some "Europe/Paris") (fun _ => true))
    DEFAULT_latitude DEFAULT_longitude (initial [])
  = (Ok "Europe/Paris",
     after (initial []) [TimezoneAt DEFAULT_latitude DEFAULT_longitude]) /\
  get_timezone_from_coordinates offline_world
    DEFAULT_latitude DEFAULT_longitude (initial [])
  = (Ok "America/Los_Angeles",
     after (initial []) [TimezoneAt DEFAULT_latitude DEFAULT_longitude]) /\
  get_timezone_from_coordinates offline_world
    DEFAULT_latitude (decimal 2000 1) (initial [])
  = (Raise ValueError,
     after (initial []) [TimezoneAt DEFAULT_latitude (decimal 2000 1)]).
Proof.
  split; [|split].
  - apply (proj1 (proj2 (timezone_fallback
             (with_timezones offline_world (fun _ _ => Some "Europe/Paris")
                             (fun _ => true))
             DEFAULT_latitude DEFAULT_longitude (initial []))) "Europe/Paris");
      [reflexivity|discriminate].
  - pose proof (proj2 (proj2 (proj2 (timezone_fallback offline_world
                  DEFAULT_latitude DEFAULT_longitude (initial []))))
                  (fun _ _ => None) eq_refl) as H.
    change (in_bounds DEFAULT_latitude DEFAULT_longitude) with true in H.
    exact (proj1 (proj2 H) eq_refl).
  - pose proof (proj2 (proj2 (proj2 (timezone_fallback offline_world
                  DEFAULT_latitude (decimal 2000 1) (initial []))))
                  (fun _ _ => None) eq_refl) as H.
    change (in_bounds DEFAULT_latitude (decimal 2000 1)) with false in H.
    exact H.
Defined.

(** C7, the failing input.  The docstring of [get_city_coordinates] promises
    the default "if None or error", but the handler names GeocoderTimedOut
    and GeocoderUnavailable only: another error of the geocoder (here geopy's
    GeocoderServiceError) leaves the function as it came, and the caller gets
    no location. *)
Lemma geocoder_error_reaches_caller :
  fst (get_city_coordinates
         (with_geocode offline_world (fun _ => Raise GeocoderServiceError))
         (Some "Paris, France") (initial []))
  = Raise GeocoderServiceError.
Proof. reflexivity. Qed.

(** What [get_city_coordinates] does in every case.  For an absent or empty
    location it returns the default (34.052235, -118.243683, "Los Angeles")
    after one print and no geocoding call.  For another location it returns
    the match when there is one, the same default when there is none or the
    geocoder raises GeocoderTimedOut or GeocoderUnavailable, and it raises
    what the geocoder raised otherwise. *)
Theorem city_coordinates_default (w : world) (location : option string)
    (st : state) :
  (location = None \/ location = Some "" ->
   get_city_coordinates w location st
   = (Ok default_location,
      after st [Print (nl ++ "Using default location: " ++ DEFAULT_CITY)])) /\
  (forall q, location = Some q -> q <> "" ->
     match geocode w q with
     | Ok (Some ld) =>
         fst (get_city_coordinates w location st)
         = Ok (latitude ld, longitude ld, address ld)
     | Ok None =>
         fst (get_city_coordinates w location st) = Ok default_location
     | Raise e =>
         fst (get_city_coordinates w location st)
         = if is_GeocoderTimedOut_or_Unavailable e
           then Ok default_location else Raise e
     end) /\
  default_location
  = (decimal 34052235 6, SFopp (decimal 118243683 6), "Los Angeles").
Proof.
  split; [|split].
  - intros [-> | ->]; reflexivity.
  - intros q -> Hq.
    assert (E : get_city_coordinates w (Some q) st =
                try_except
                  (bind (emit (Geocode q)) (fun _ =>
                   bind (lift (geocode w q)) (fun location_data =>
                   match location_data with
                   | Some ld =>
                       bind (print (nl ++ "Found location: " ++ address ld))
                            (fun _ => ret (latitude ld, longitude ld, address ld))
                   | None =>
                       bind (print (nl ++ "Could not find coordinates for " ++ q
                                       ++ ", using Los Angeles as default"))
                            (fun _ => ret default_location)
                   end)))
                  (fun e =>
                     if is_GeocoderTimedOut_or_Unavailable e
                     then Some (bind (print (nl ++ "Error getting coordinates: "
                                                ++ exn_str w e
                                                ++ ". Using Los Angeles as default"))
                                     (fun _ => ret default_location))
                     else None) st).
    { destruct q as [|a q']; [contradiction|reflexivity]. }
    rewrite E. unfold try_except, bind, emit, lift, print, ret.
    destruct (geocode w q) as [[ld|]|e]; cbn; try reflexivity.
    destruct (is_GeocoderTimedOut_or_Unavailable e); reflexivity.
  - vm_compute. reflexivity.
Qed.

(** The empty location. *)
Lemma city_coordinates_default_witness :
  get_city_coordinates offline_world (Some "")  (initial [])
  = (Ok default_location,
     after (initial []) [Print (nl ++ "Using default location: " ++ DEFAULT_CITY)]).
Proof.
  apply (proj1 (city_coordinates_default offline_world (Some "") (initial []))).
  right. reflexivity.
Defined.

(** C10. Whatever the position request gives, [get_iss_position] never
    returns a mixed triple: a triple it returns is (None, None, None), for
    which [main] prints that the position is unavailable, or three floats;
    and an exception it lets through is none of those it handles. *)
Theorem position_all_or_nothing (key : option string) (w : world) (st : state) :
  match fst (get_iss_position key w st) with
  | Ok p =>
      all_or_nothing p = true /\
      (p = no_position /\
       report_position w p = print "Unable to fetch current ISS position"
       \/ exists lat lng alt, p = (Some lat, Some lng, Some alt))
  | Raise e =>
      is_RequestException e = false /\ is_KeyError_or_IndexError e = false /\
      is_ValueError e = false
  end.
Proof.
  cbv beta delta [get_iss_position try_except bind sleep emit lift print ret rbind].
  cbn [fst snd stdin trace].
  repeat (case_scrutinee; cbn [fst snd stdin trace] in *);
    repeat match goal with
           | H : (_, _) = (_, _) |- _ => inversion H; subst; clear H
           end;
    try discriminate;
    try (split; [reflexivity|left; split; reflexivity]);
    try (split; [reflexivity|right; do 3 eexists; reflexivity]);
    try (repeat split; assumption).
Qed.



(** A response whose first entry converts gives its three floats. *)
Lemma get_iss_position_present (key : option string) (w : world) (st : state)
    (resp : response) (d : list (string * json)) (entry : json)
    (rest : list json) (lat lng alt : float) :
  http_get w (positions_request key) = Ok resp ->
  raise_for_status resp = Ok tt -> body resp = Ok (JDict d) ->
  dict_get d "error" = None ->
  dict_get d "positions" = Some (JList (entry :: rest)) ->
  position_fields w entry = Ok (lat, lng, alt) ->
  fst (get_iss_position key w st) = Ok (Some lat, Some lng, Some alt).
Proof.
  intros Hg Hs Hb Herr Hp Hf. unfold positions_request in Hg. run_position.
  rewrite Hg. cbn [fst snd]. read_response Hs Hb.
  rewrite Herr, Hp. cbn [truthy negb getitem_0 fst snd].
  unfold position_fields in Hf.
  destruct (rbind (getitem_str entry "satlatitude") (py_float w)) as [a|e1];
    cbn [rbind fst snd] in *; [|discriminate].
  destruct (rbind (getitem_str entry "satlongitude") (py_float w)) as [b|e1];
    cbn [rbind fst snd] in *; [|discriminate].
  destruct (rbind (getitem_str entry "sataltitude") (py_float w)) as [c|e1];
    cbn [rbind fst snd] in *; [|discriminate].
  inversion Hf; subst. reflexivity.
Qed.

(** C5, the failing input.  A position response whose first entry has
    [satlatitude: null] makes [float(None)] raise TypeError, which no handler
    of [get_iss_position] names: the call raises instead of returning
    (None, None, None), and the run ends with that exception. *)
Theorem null_position_field_raises :
  fst (get_iss_position (Some "KEY")
         (with_http_get offline_world (n2yo null_latitude_response no_passes_response))
         (initial []))
  = Raise TypeError /\
  fst (run (Some "KEY")
         (with_http_get offline_world (n2yo null_latitude_response no_passes_response))
         [""])
  = Raise TypeError.
Proof. split; vm_compute; reflexivity. Qed.

Lemma bind_ok {A B} (m : M A) (k : A -> M B) (st st' : state) (a : A) :
  m st = (Ok a, st') -> bind m k st = k a st'.
Proof. intros H. unfold bind. rewrite H. reflexivity. Qed.

Lemma bind_print {B} (text : string) (k : unit -> M B) (st : state) :
  bind (print text) k st = k tt (after st [Print text]).
Proof. reflexivity. Qed.







Lemma directions_nth (z : Z) :
  In (nth (Z.to_nat (z mod 16)) directions EmptyString) directions.
Proof.
  pose proof (Z.mod_pos_bound z 16 ltac:(lia)).
  apply nth_In. change (List.length directions) with 16%nat. lia.
Qed.

(** [get_cardinal_direction] returns one of the 16 labels for every azimuth. *)
Lemma get_cardinal_direction_total (v : json) :
  is_azimuth v = true ->
  exists d, get_cardinal_direction v = Ok d /\ In d directions.
Proof.
  destruct v as [| |n|x| | |]; try discriminate; cbn [is_azimuth]; intros H.
  - apply Z.ltb_lt in H.
    destruct (Z.eq_dec n 0) as [->|Hn].
    + exists "N". split; [reflexivity|left; reflexivity].
    + destruct (float_of_int_valid n Hn H) as (Hv & _).
      pose proof (float_of_int_small n Hn H) as Hf. cbv zeta in Hf, Hv.
      destruct (round_fdiv_total _ Hv eq_refl) as (z & Hz).
      eexists. split; [exact (get_cardinal_direction_int n _ z Hf Hz)|].
      apply directions_nth.
  - apply andb_prop in H. destruct H as [Hv Hf].
    destruct (round_fdiv_total x Hv Hf) as (z & Hz).
    eexists. split; [exact (get_cardinal_direction_float x z Hz)|].
    apply directions_nth.
Qed.

Lemma string_app_assoc (a b c : string) : (a ++ b) ++ c = a ++ (b ++ c).
Proof. induction a as [|x a IH]; cbn; [reflexivity|]. rewrite IH. reflexivity. Qed.

(** For a pass record whose six fields are present, whose timestamps
    [datetime] accepts and whose azimuths are numbers, and a timezone name
    that pytz knows and in which both instants are representable,
    [format_pass_info] returns, printing nothing, the seven
    lines start time, starting direction, maximum elevation, ending
    direction, end time, duration and viewing guide, with the cardinal labels
    of both azimuths. *)
Lemma format_pass_info_known_zone (w : world) (pass_data : json)
    (p : pass_fields w pass_data) (timezone_str : string) (st : state) :
  pytz_knows w timezone_str = true ->
  representable w (start_instant _ _ p) (Zone timezone_str) = true ->
  representable w (end_instant _ _ p) (Zone timezone_str) = true ->
  let at_zone t := strftime w {| instant := t; tz := Zone timezone_str |} in
  exists from to,
    get_cardinal_direction (startAz _ _ p) = Ok from /\ In from directions /\
    get_cardinal_direction (endAz _ _ p) = Ok to /\ In to directions /\
    format_pass_info w pass_data timezone_str st
    = (Ok (String.concat nl
             [start_line (at_zone (start_instant _ _ p) time_format);
              starting_direction_line (str w (startAz _ _ p)) from;
              maximum_elevation_line (str w (maxEl _ _ p));
              ending_direction_line (str w (endAz _ _ p)) to;
              end_line (at_zone (end_instant _ _ p) time_format);
              duration_line (str w (duration _ _ p));
              viewing_guide_line from
                (at_zone (start_instant _ _ p) "%I:%M %p")
                (str w (maxEl _ _ p)) to]),
       st).
Proof.
  intros Hk R1 R2 at_zone.
  destruct p as [sU eU sA eA mE du t1 t2 H1 H2 H3 H4 H5 H6 F1 F2 A1 A2].
  cbn [startUTC endUTC startAz endAz maxEl duration start_instant end_instant]
    in *.
  destruct (get_cardinal_direction_total sA A1) as (from & Hfrom & Ifrom).
  destruct (get_cardinal_direction_total eA A2) as (to & Hto & Ito).
  exists from, to. do 4 (split; [assumption|]).
  run_format.
  rewrite Hk, H1, H2, H3, H4, H5, H6. cbn [rbind fst snd].
  rewrite F1, F2. cbn [rbind fst snd instant]. rewrite R1, R2.
  cbn [rbind fst snd]. rewrite Hfrom, Hto. cbn [fst snd].
  f_equal. f_equal.
  unfold start_line, starting_direction_line, maximum_elevation_line,
    ending_direction_line, end_line, duration_line, viewing_guide_line, at_zone.
  cbn [String.concat].
  repeat rewrite string_app_assoc. reflexivity.
Qed.

(** The seven lines on a pass of the N2YO documentation, where pytz knows
    every name. *)
Lemma format_pass_info_known_zone_example :
  format_pass_info (pytz_world (fun _ => true)) sample_pass "Europe/Paris"
    (initial [])
  = (Ok (String.concat nl
           [start_line "<time>";
            starting_direction_line "<value>" "NW";
            maximum_elevation_line "<value>";
            ending_direction_line "<value>" "ENE";
            end_line "<time>";
            duration_line "<value>";
            viewing_guide_line "NW" "<time>" "<value>" "ENE"]),
     initial []).
Proof.
  destruct (format_pass_info_known_zone (pytz_world (fun _ => true))
              sample_pass (sample_pass_fields _) "Europe/Paris" (initial [])
              eq_refl eq_refl eq_refl)
    as (from & to & Hfrom & _ & Hto & _ & H).
  rewrite H.
  vm_compute in Hfrom. vm_compute in Hto.
  injection Hfrom as <-. injection Hto as <-.
  reflexivity.
Defined.

(** [pytz.exceptions.PytzError] does not evaluate to a class. *)
Lemma pytz_exceptions_PytzError :
  pytz_exceptions "PytzError" = Raise AttributeError.
Proof. reflexivity. Qed.

(** The [except] clause of [format_pass_info] names a class that
    [pytz.exceptions] does not have.  Whatever exception leaves the [try]
    body, the lookup of the class raises AttributeError in its place, and the
    fallback to UTC is never run; nothing is printed. *)
Lemma format_pass_info_no_fallback (w : world) (pass_data : json)
    (timezone_str : string) (st : state) :
  (exists text, format_pass_info w pass_data timezone_str st = (Ok text, st)) \/
  format_pass_info w pass_data timezone_str st = (Raise AttributeError, st).
Proof.
  run_format_steps. rewrite pytz_exceptions_PytzError.
  repeat match goal with
  | |- context [match ?r with Ok _ => _ | Raise _ => _ end] =>
      lazymatch r with
      | context [match _ with _ => _ end] => fail
      | _ => destruct r eqn:?
      end
  | |- context [if ?b then _ else _] => destruct b eqn:?
  end;
  cbn [rbind fst snd];
  try (right; reflexivity);
  try (left; eexists; reflexivity).
Qed.

(** With a timezone name that pytz does not know, [format_pass_info] raises
    AttributeError, on every pass record. *)
Lemma format_pass_info_unknown_zone (w : world) (pass_data : json)
    (timezone_str : string) (st : state) :
  pytz_knows w timezone_str = false ->
  format_pass_info w pass_data timezone_str st = (Raise AttributeError, st).
Proof.
  intros Hk. run_format. rewrite pytz_exceptions_PytzError, Hk. reflexivity.
Qed.

(** C6, the failing input.  On a well-formed pass record and a timezone name
    that pytz does not know, [pytz.timezone] raises UnknownTimeZoneError; the
    clause [except pytz.exceptions.PytzError] is then evaluated, and
    [pytz.exceptions] has no attribute of that name: [format_pass_info]
    raises AttributeError, prints no fallback notice and returns no start and
    end lines in UTC. *)
Theorem unknown_zone_raises :
  format_pass_info offline_world sample_pass "Mars/Olympus" (initial [])
  = (Raise AttributeError, initial []).
Proof.
  apply format_pass_info_unknown_zone. reflexivity.
Qed.

(* ================================================================== *)
(** ** The location prompt *)

Lemma lstrip_blank (s : string) : blank s = true -> lstrip s = "".
Proof.
  induction s as [|a s IH]; cbn; [reflexivity|].
  intros H. apply andb_prop in H. destruct H as [Ha Hs].
  rewrite Ha. auto.
Qed.

Lemma lstrip_not_blank (s : string) :
  blank s = false ->
  exists a t, lstrip s = String a t /\ is_space a = false.
Proof.
  induction s as [|a s IH]; cbn; [discriminate|].
  destruct (is_space a) eqn:Ha; cbn.
  - exact IH.
  - intros _. exists a, s. split; [reflexivity|exact Ha].
Qed.

Lemma rstrip_head (a : ascii) (t : string) :
  is_space a = false -> rstrip (String a t) <> "".
Proof.
  intros Ha. cbn. destruct (rstrip t); [rewrite Ha|]; discriminate.
Qed.

(** [not s.strip()] holds exactly for the lines of whitespace. *)
Lemma strip_blank (s : string) : String.eqb (strip s) "" = blank s.
Proof.
  unfold strip. destruct (blank s) eqn:Hb.
  - rewrite (lstrip_blank s Hb). reflexivity.
  - destruct (lstrip_not_blank s Hb) as (a & t & -> & Ha).
    apply String.eqb_neq. apply rstrip_head. exact Ha.
Qed.

Lemma app_empty (a b : string) : a ++ b = "" -> b = "".
Proof. destruct a; cbn; [auto|discriminate]. Qed.

Lemma get_user_location_answers (city state country : string)
    (rest : list string) (tr : list event) :
  blank city = false ->
  get_user_location {| stdin := city :: state :: country :: rest; trace := tr |}
  = (Ok (Some (location_string city state country)),
     {| stdin := rest;
        trace := tr ++ [location_banner; city_prompt; state_prompt;
                        country_prompt] |}).
Proof.
  intros Hb. run_location. rewrite !strip_blank, Hb. run_location.
  unfold location_string.
  rewrite <- !app_assoc. cbn [app].
  rewrite !strip_blank.
  destruct (blank state) eqn:Hs; destruct (blank country) eqn:Hc;
    cbn [String.eqb Ascii.eqb Bool.eqb]; rewrite ?strip_blank, ?Hc;
    rewrite ?string_app_assoc; reflexivity.
Qed.

Lemma location_string_not_empty (city state country : string) :
  location_string city state country <> "".
Proof.
  unfold location_string. intros H.
  apply app_empty in H. apply app_empty in H. discriminate H.
Qed.

Lemma get_user_location_blank (city : string) (rest : list string)
    (tr : list event) :
  blank city = true ->
  get_user_location {| stdin := city :: rest; trace := tr |}
  = (Ok None, {| stdin := rest; trace := tr ++ [location_banner; city_prompt] |}).
Proof.
  intros Hb. run_location. rewrite strip_blank, Hb.
  rewrite <- app_assoc. reflexivity.
Qed.

(** X1. When the answer to the city prompt is empty or made of ASCII
    whitespace only (spaces, tabs and the like),
    [get_user_location] returns [None] after the banner and that one prompt:
    the state and country prompts are not shown and the lines that follow on
    stdin stay unread. *)
Theorem blank_city_means_default (city : string) (rest : list string)
    (tr : list event) :
  blank city = true ->
  get_user_location {| stdin := city :: rest; trace := tr |}
  = (Ok None, {| stdin := rest; trace := tr ++ [location_banner; city_prompt] |}).
Proof.
  intros Hb. apply get_user_location_blank. exact Hb.
Qed.

(** X1 on a line of two spaces. *)
Lemma blank_city_means_default_witness :
  get_user_location {| stdin := ["  "; "Paris"]; trace := [] |}
  = (Ok None, {| stdin := ["Paris"]; trace := [location_banner; city_prompt] |}).
Proof.
  exact (blank_city_means_default "  " ["Paris"] [] eq_refl).
Defined.

(** X2. For three answers in ASCII text with a city that is not blank,
    [get_user_location] shows its three prompts in order and returns the
    stripped city, then the stripped state when it is not blank, then the
    stripped country, joined by a comma and a space; a blank country is
    replaced by USA.  The location is therefore never empty and always names
    a country: the test [if country] never fails. *)
Theorem location_names_a_country (city state country : string)
    (rest : list string) (tr : list event) :
  ascii_text city = true -> ascii_text state = true ->
  ascii_text country = true ->
  blank city = false ->
  get_user_location {| stdin := city :: state :: country :: rest; trace := tr |}
  = (Ok (Some (location_string city state country)),
     {| stdin := rest;
        trace := tr ++ [location_banner; city_prompt; state_prompt;
                        country_prompt] |}) /\
  location_string city state country <> "" /\
  (blank country = true ->
   exists place, location_string city state country = place ++ ", USA").
Proof.
  intros _ _ _ Hb. split; [|split].
  - apply get_user_location_answers. exact Hb.
  - apply location_string_not_empty.
  - intros Hc. unfold location_string. rewrite Hc.
    exists (strip city ++ (if blank state then "" else ", " ++ strip state)).
    rewrite string_app_assoc. reflexivity.
Qed.

(** X2 on a city alone. *)
Lemma location_names_a_country_witness :
  get_user_location {| stdin := [" Paris"; ""; " "]; trace := [] |}
  = (Ok (Some "Paris, USA"),
     {| stdin := [];
        trace := [location_banner; city_prompt; state_prompt; country_prompt] |}).
Proof.
  exact (proj1 (location_names_a_country " Paris" "" " " [] []
                  eq_refl eq_refl eq_refl eq_refl)).
Defined.

(** X3. With the credential present, when stdin ends before the prompts are
    answered (no line at all, or a city that is not blank followed by fewer
    than two lines), [input] raises EOFError, nothing handles it, and the run
    ends with it before any network call. *)
Theorem closed_stdin_ends_the_run (k : string) (w : world)
    (lines : list string) :
  k <> "" ->
  ends_early lines = true ->
  fst (run (Some k) w lines) = Raise EOFError /\
  stdin (snd (run (Some k) w lines)) = [] /\
  existsb is_network (trace (snd (run (Some k) w lines))) = false.
Proof.
  intros Hk He. unfold run, program.
  destruct k as [|a k']; [contradiction|].
  unfold main.
  destruct lines as [|city [|state [|country rest]]];
    cbn [ends_early List.length Nat.ltb Nat.leb andb] in He.
  - repeat split.
  - rewrite andb_true_r in He. apply andb_prop in He. destruct He as [_ He].
    apply negb_true_iff in He.
    unfold bind at 1. run_location. rewrite strip_blank, He. repeat split.
  - rewrite andb_true_r in He. apply andb_prop in He. destruct He as [_ He].
    apply negb_true_iff in He.
    unfold bind at 1. run_location. rewrite strip_blank, He. repeat split.
  - rewrite andb_false_r in He. discriminate He.
Qed.

(** X3 on a city and a state with no third line. *)
Lemma closed_stdin_ends_the_run_witness :
  fst (run (Some "KEY") offline_world ["Paris"; "Texas"]) = Raise EOFError.
Proof.
  exact (proj1 (closed_stdin_ends_the_run "KEY" offline_world ["Paris"; "Texas"]
                  ltac:(discriminate) eq_refl)).
Defined.

(* ================================================================== *)
(** ** The geocoder and the two requests *)

(** X4. For a location that is not empty, [get_city_coordinates] asks the
    geocoder once, with that very string, and prints one line: a match is
    returned with its latitude, longitude and address unchanged; no match,
    GeocoderTimedOut and GeocoderUnavailable give the default location; any
    other exception of the geocoder leaves the function right after the
    query, with nothing printed. *)
Theorem geocoding_outcomes (w : world) (q : string) (st : state) :
  q <> "" ->
  get_city_coordinates w (Some q) st
  = match geocode w q with
    | Ok (Some ld) =>
        (Ok (latitude ld, longitude ld, address ld),
         after st [Geocode q; Print (nl ++ "Found location: " ++ address ld)])
    | Ok None =>
        (Ok default_location,
         after st [Geocode q;
                   Print (nl ++ "Could not find coordinates for " ++ q
                             ++ ", using Los Angeles as default")])
    | Raise e =>
        if is_GeocoderTimedOut_or_Unavailable e
        then (Ok default_location,
              after st [Geocode q;
                        Print (nl ++ "Error getting coordinates: " ++ exn_str w e
                                  ++ ". Using Los Angeles as default")])
        else (Raise e, after st [Geocode q])
    end.
Proof.
  intros Hq. destruct q as [|a q]; [contradiction|].
  cbv beta zeta delta [get_city_coordinates try_except bind print emit lift ret].
  cbn [fst snd stdin trace]. unfold after. cbn [stdin trace].
  destruct (geocode w (String a q)) as [[ld|]|e]; cbn [fst snd stdin trace];
    try destruct (is_GeocoderTimedOut_or_Unavailable e);
    cbn [fst snd stdin trace]; rewrite <- ?app_assoc; reflexivity.
Qed.

(** X4 on a match. *)
Lemma geocoding_outcomes_witness :
  get_city_coordinates answering_world (Some "Paris, France") (initial [])
  = (Ok (decimal 488566 4, decimal 23522 4, "Paris, France"),
     after (initial [])
       [Geocode "Paris, France"; Print (nl ++ "Found location: Paris, France")]).
Proof.
  exact (geocoding_outcomes answering_world "Paris, France" (initial [])
           ltac:(discriminate)).
Defined.

(** Whatever the answer, [get_iss_position] sleeps, sends its request and
    then only prints. *)
Lemma get_iss_position_events (key : option string) (w : world) (st : state) :
  exists texts,
    snd (get_iss_position key w st)
    = after st (Sleep 1 :: HttpGet (positions_request key) :: map Print texts) /\
    (List.length texts <= 2)%nat.
Proof.
  unfold positions_request.
  cbv beta zeta delta [get_iss_position try_except bind sleep emit lift print
                       ret rbind].
  cbn [fst snd stdin trace].
  repeat (case_scrutinee; cbn [fst snd stdin trace] in * );
    repeat match goal with
           | H : (_, _) = (_, _) |- _ => inversion H; subst; clear H
           end;
    try discriminate; give_texts.
Qed.

(** Whatever the answer, [get_next_passes] sends its request and then only
    prints. *)
Lemma get_next_passes_events (key : option string) (w : world)
    (lat lng : float) (alt days : Z) (st : state) :
  exists texts,
    snd (get_next_passes key w lat lng alt days st)
    = after st (HttpGet (passes_request key lat lng alt days) :: map Print texts) /\
    (List.length texts <= 1)%nat.
Proof.
  unfold passes_request.
  cbv beta zeta delta [get_next_passes try_except bind sleep emit lift print
                       ret rbind].
  cbn [fst snd stdin trace].
  repeat (case_scrutinee; cbn [fst snd stdin trace] in * );
    repeat match goal with
           | H : (_, _) = (_, _) |- _ => inversion H; subst; clear H
           end;
    try discriminate; give_texts.
Qed.

(** X5. Every call of [get_iss_position], whatever the service answers and
    whether the call returns or raises, first sleeps one second, then sends
    exactly one request, for the positions of satellite 25544 with the
    credential, and after that only prints, at most two lines; it reads
    nothing from stdin and never asks twice. *)
Theorem position_request_is_rate_limited (key : option string) (w : world)
    (st : state) :
  let st' := snd (get_iss_position key w st) in
  stdin st' = stdin st /\
  exists texts,
    trace st'
    = (trace st ++ [Sleep 1; HttpGet (GetPositions 25544 0 0 0 1 key)]
                ++ map Print texts)%list /\
    (List.length texts <= 2)%nat.
Proof.
  destruct (get_iss_position_events key w st) as (texts & E & Hn).
  cbv zeta. rewrite E. split; [reflexivity|].
  exists texts. split; [reflexivity|exact Hn].
Qed.

(** X6. A position response with a success status whose JSON body is
    [null], a boolean or a number makes [get_iss_position] raise TypeError
    at the test ['error' in data], right after the line that echoes the
    body: no handler of the function names TypeError. *)
Theorem scalar_body_raises (key : option string) (w : world) (st : state)
    (resp : response) (v : json) :
  http_get w (positions_request key) = Ok resp ->
  raise_for_status resp = Ok tt ->
  body resp = Ok v ->
  is_scalar v = true ->
  get_iss_position key w st
  = (Raise TypeError,
     after st [Sleep 1; HttpGet (positions_request key);
               Print ("API Response: " ++ str w v)]).
Proof.
  intros Hg Hs Hb Hv. unfold positions_request in *. run_position.
  rewrite Hg. cbn [fst snd]. rewrite Hs. unfold response_json. rewrite Hb.
  cbn [fst snd stdin trace].
  unfold after. cbn [stdin trace]. rewrite <- !app_assoc. cbn [app].
  destruct v; try discriminate; reflexivity.
Qed.

(** X6 on the body [null]. *)
Lemma scalar_body_raises_witness :
  fst (get_iss_position (Some "KEY")
         (with_http_get offline_world
            (fun _ => Ok {| status_code := 200; body := Ok JNull |}))
         (initial []))
  = Raise TypeError.
Proof.
  exact (f_equal fst
           (scalar_body_raises (Some "KEY")
              (with_http_get offline_world
                 (fun _ => Ok {| status_code := 200; body := Ok JNull |}))
              (initial []) _ JNull eq_refl eq_refl eq_refl eq_refl)).
Defined.

(** X7. Every call of [get_next_passes], whatever the service answers and
    whether the call returns or raises, sends exactly one request, for the
    visual passes of satellite 25544 over the given coordinates, altitude
    and number of days with a minimum visibility of 300 seconds, without
    sleeping first, and after that prints at most one line. *)
Theorem pass_request_is_sent_once (key : option string) (w : world)
    (lat lng : float) (alt days : Z) (st : state) :
  let st' := snd (get_next_passes key w lat lng alt days st) in
  stdin st' = stdin st /\
  exists texts,
    trace st'
    = (trace st ++ [HttpGet (GetVisualPasses 25544 lat lng alt days 300 key)]
                ++ map Print texts)%list /\
    (List.length texts <= 1)%nat.
Proof.
  destruct (get_next_passes_events key w lat lng alt days st) as (texts & E & Hn).
  cbv zeta. rewrite E. split; [reflexivity|].
  exists texts. split; [reflexivity|exact Hn].
Qed.

(* ================================================================== *)
(** ** Pass descriptions and their listing *)

(** [format_pass_info] has no effect, and its result does not depend on the
    state. *)
Lemma format_pass_info_pure (w : world) (pass_data : json)
    (timezone_str : string) (st : state) :
  format_pass_info w pass_data timezone_str st
  = (fst (format_pass_info w pass_data timezone_str (initial [])), st).
Proof.
  run_format_steps. rewrite pytz_exceptions_PytzError.
  case_results; reflexivity.
Qed.

(** X8. [format_pass_info] never prints and leaves the state as it was; its
    result is the same from every state; and the only exception it raises
    is AttributeError, whatever went wrong in its [try] body (an unknown
    zone, a missing field, a value that is no timestamp or no number). *)
Theorem format_never_prints (w : world) (pass_data : json)
    (timezone_str : string) (st : state) :
  snd (format_pass_info w pass_data timezone_str st) = st /\
  (forall st0, fst (format_pass_info w pass_data timezone_str st0)
               = fst (format_pass_info w pass_data timezone_str st)) /\
  ((exists text, fst (format_pass_info w pass_data timezone_str st) = Ok text) \/
   fst (format_pass_info w pass_data timezone_str st) = Raise AttributeError).
Proof.
  split; [|split].
  - rewrite format_pass_info_pure. reflexivity.
  - intros st0. rewrite (format_pass_info_pure w pass_data timezone_str st0),
      (format_pass_info_pure w pass_data timezone_str st). reflexivity.
  - destruct (format_pass_info_no_fallback w pass_data timezone_str st)
      as [(text & ->)| ->]; [left; exists text|right]; reflexivity.
Qed.

(** X9. [format_pass_info] reads six fields of the pass record and nothing
    else: two records that agree on startUTC, endUTC, startAz, maxEl, endAz
    and duration are formatted alike.  The compass fields that the service
    sends along are not used; the labels are computed from the azimuths. *)
Theorem format_reads_six_fields (w : world) (p1 p2 : json)
    (timezone_str : string) (st : state) :
  (forall k, In k pass_keys -> getitem_str p1 k = getitem_str p2 k) ->
  format_pass_info w p1 timezone_str st = format_pass_info w p2 timezone_str st.
Proof.
  intros H. unfold format_pass_info.
  rewrite (H "startUTC"), (H "endUTC"), (H "startAz"), (H "maxEl"),
          (H "endAz"), (H "duration");
    try reflexivity; cbn; tauto.
Qed.

(** X9 on the sample pass with and without its compass fields. *)
Lemma format_reads_six_fields_witness :
  format_pass_info numbering_world sample_pass "Europe/Paris" (initial [])
  = format_pass_info numbering_world bare_pass "Europe/Paris" (initial []).
Proof.
  apply format_reads_six_fields.
  intros k Hk. cbn in Hk.
  repeat (destruct Hk as [<-|Hk]; [reflexivity|]). contradiction.
Defined.

Lemma enumerate_cons {A} (start : Z) (x : A) (l : list A) :
  enumerate start (x :: l) = (start, x) :: enumerate (start + 1) l.
Proof.
  unfold enumerate. cbn [List.length seq map combine].
  rewrite Z.add_0_r. f_equal. f_equal.
  rewrite <- seq_shift, map_map.
  apply map_ext. intros k. lia.
Qed.

(** The loop over passes that all format. *)
Lemma print_passes_listing (w : world) (timezone_str : string)
    (passes : list json) (texts : list string) :
  Forall2 (formats_to w timezone_str) passes texts ->
  forall (i : Z) (st : state),
    print_passes w i passes timezone_str st
    = (Ok tt, after st (pass_listing w (enumerate i texts))).
Proof.
  induction 1 as [|p t passes texts Hp _ IH]; intros i st.
  - unfold after. cbn. rewrite app_nil_r. destruct st; reflexivity.
  - cbn [print_passes]. rewrite bind_print.
    unfold bind at 1. rewrite Hp. rewrite bind_print.
    rewrite IH. rewrite enumerate_cons.
    unfold after, pass_listing, pass_header. cbn [stdin trace flat_map fst snd].
    rewrite <- !app_assoc. reflexivity.
Qed.

(** The loop up to the first pass that does not format. *)
Lemma print_passes_stops (w : world) (timezone_str : string)
    (good : list json) (texts : list string) (bad : json) (rest : list json)
    (e : exn) :
  Forall2 (formats_to w timezone_str) good texts ->
  (forall st, format_pass_info w bad timezone_str st = (Raise e, st)) ->
  forall (i : Z) (st : state),
    print_passes w i (good ++ bad :: rest) timezone_str st
    = (Raise e,
       after st (pass_listing w (enumerate i texts)
                 ++ [pass_header w (i + Z.of_nat (List.length texts))])%list).
Proof.
  intros Hgood Hbad.
  induction Hgood as [|p t good texts Hp _ IH]; intros i st.
  - cbn [app print_passes]. rewrite bind_print.
    unfold bind at 1. rewrite Hbad.
    unfold after, pass_header. cbn. rewrite Z.add_0_r. reflexivity.
  - cbn [app print_passes]. rewrite bind_print.
    unfold bind at 1. rewrite Hp. rewrite bind_print.
    rewrite IH. rewrite enumerate_cons.
    replace (i + Z.of_nat (List.length (t :: texts)))
      with (i + 1 + Z.of_nat (List.length texts))
      by (cbn [List.length]; lia).
    unfold after, pass_listing, pass_header.
    cbn [stdin trace flat_map fst snd].
    rewrite <- !app_assoc. reflexivity.
Qed.

Lemma sample_pass_formats :
  formats_to numbering_world "Europe/Paris" sample_pass sample_text.
Proof. intros st. rewrite format_pass_info_pure. reflexivity. Qed.

Lemma sample_pass_formats_answering :
  formats_to answering_world "Europe/Paris" sample_pass sample_text.
Proof. intros st. rewrite format_pass_info_pure. reflexivity. Qed.

Lemma empty_record_fails (st : state) :
  format_pass_info numbering_world (JDict []) "Europe/Paris" st
  = (Raise AttributeError, st).
Proof. rewrite format_pass_info_pure. reflexivity. Qed.

(** X14. When the passes received are a list that is not empty and every
    pass formats, the last statement of [main] prints the banner and then,
    for each pass in the order received, a header and the description: two
    lines per pass, the headers numbered from 1 as [enumerate(passes, 1)]
    counts. *)
Theorem passes_are_numbered_from_one (w : world) (timezone_str : string)
    (passes : list json) (texts : list string) (st : state) :
  passes <> [] ->
  Forall2 (formats_to w timezone_str) passes texts ->
  report_passes w (JList passes) timezone_str st
  = (Ok tt, after st (passes_banner :: pass_listing w (enumerate 1 texts))).
Proof.
  intros Hne H. unfold report_passes.
  destruct passes as [|p passes]; [contradiction|].
  cbn [truthy iterate]. rewrite bind_print.
  unfold bind at 1. unfold lift.
  rewrite (print_passes_listing w timezone_str _ _ H).
  unfold after. cbn [stdin trace]. rewrite <- app_assoc. reflexivity.
Qed.

(** X14 on two passes. *)
Lemma passes_are_numbered_from_one_witness :
  report_passes numbering_world (JList [sample_pass; sample_pass])
    "Europe/Paris" (initial [])
  = (Ok tt,
     after (initial [])
       [passes_banner;
        Print (nl ++ "Pass 1:"); Print sample_text;
        Print (nl ++ "Pass 2:"); Print sample_text]).
Proof.
  apply (passes_are_numbered_from_one numbering_world
           "Europe/Paris" [sample_pass; sample_pass] [sample_text; sample_text]).
  - discriminate.
  - constructor; [exact sample_pass_formats|].
    constructor; [exact sample_pass_formats|constructor].
Defined.

(** X15. When a pass of the list does not format, the passes before it are
    printed, then the header of that pass, and the exception of
    [format_pass_info] ends the loop and leaves [main]: the description of
    that pass and all later passes are not printed. *)
Theorem failing_pass_ends_the_listing (w : world) (timezone_str : string)
    (good : list json) (texts : list string) (bad : json) (rest : list json)
    (e : exn) (st : state) :
  Forall2 (formats_to w timezone_str) good texts ->
  (forall st0, format_pass_info w bad timezone_str st0 = (Raise e, st0)) ->
  report_passes w (JList (good ++ bad :: rest)) timezone_str st
  = (Raise e,
     after st (passes_banner
               :: pass_listing w (enumerate 1 texts)
               ++ [pass_header w (1 + Z.of_nat (List.length texts))])%list).
Proof.
  intros Hgood Hbad. unfold report_passes.
  assert (Ht : truthy (JList (good ++ bad :: rest)) = true)
    by (destruct good; reflexivity).
  rewrite Ht. cbn [iterate]. rewrite bind_print.
  unfold bind at 1. unfold lift.
  rewrite (print_passes_stops w timezone_str _ _ _ _ _ Hgood Hbad).
  unfold after. cbn [stdin trace]. rewrite <- app_assoc. reflexivity.
Qed.

(** X15 on a record without fields between two passes. *)
Lemma failing_pass_ends_the_listing_witness :
  report_passes numbering_world
    (JList [sample_pass; JDict []; sample_pass]) "Europe/Paris" (initial [])
  = (Raise AttributeError,
     after (initial [])
       [passes_banner;
        Print (nl ++ "Pass 1:"); Print sample_text;
        Print (nl ++ "Pass 2:")]).
Proof.
  apply (failing_pass_ends_the_listing numbering_world
           "Europe/Paris" [sample_pass] [sample_text] (JDict []) [sample_pass]).
  - constructor; [exact sample_pass_formats|constructor].
  - exact empty_record_fails.
Defined.

(* ================================================================== *)
(** ** The network calls of a run *)

Lemma network_after (st : state) (evs : list event) :
  network (after st evs) = (network st ++ filter is_network evs)%list.
Proof. unfold network, after. cbn [trace]. apply filter_app. Qed.

Lemma network_prints (texts : list string) :
  filter is_network (map Print texts) = [].
Proof. induction texts; cbn; auto. Qed.

Lemma print_network (text : string) (st : state) :
  network (after st [Print text]) = network st.
Proof. rewrite network_after. cbn. apply app_nil_r. Qed.

Lemma get_user_location_network (st : state) :
  network (snd (get_user_location st)) = network st.
Proof.
  destruct st as [lines tr]. unfold network.
  destruct lines as [|city [|state [|country rest]]]; run_location;
    try destruct (String.eqb (strip city) "");
    cbn [snd trace]; rewrite ?filter_app; cbn [filter is_network];
    rewrite ?app_nil_r; reflexivity.
Qed.

Lemma get_city_coordinates_network (w : world) (location : option string)
    (st : state) :
  network (snd (get_city_coordinates w location st))
  = (network st ++ match location with
                   | None | Some "" => []
                   | Some q => [Geocode q]
                   end)%list.
Proof.
  unfold network.
  destruct location as [[|a q]|];
    cbv beta zeta delta [get_city_coordinates try_except bind print emit lift ret];
    cbn [fst snd stdin trace].
  - rewrite filter_app, app_nil_r. cbn. rewrite app_nil_r. reflexivity.
  - destruct (geocode w (String a q)) as [[ld|]|e]; cbn [fst snd stdin trace];
      try destruct (is_GeocoderTimedOut_or_Unavailable e);
      cbn [fst snd stdin trace];
      rewrite ?filter_app; cbn [filter is_network]; rewrite ?app_nil_r;
      reflexivity.
  - rewrite filter_app, app_nil_r. cbn. rewrite app_nil_r. reflexivity.
Qed.

Lemma get_timezone_network (w : world) (lat lng : float) (st : state) :
  exists r st',
    get_timezone_from_coordinates w lat lng st = (r, st') /\
    network st' = network st.
Proof.
  rewrite get_timezone_from_coordinates_cases.
  do 2 eexists. split; [reflexivity|].
  rewrite network_after. cbn. apply app_nil_r.
Qed.

Lemma get_iss_position_network (key : option string) (w : world) (st : state) :
  network (snd (get_iss_position key w st))
  = (network st ++ [HttpGet (positions_request key)])%list.
Proof.
  destruct (get_iss_position_events key w st) as (texts & -> & _).
  rewrite network_after. cbn [filter is_network].
  rewrite network_prints. reflexivity.
Qed.

Lemma get_next_passes_network (key : option string) (w : world)
    (lat lng : float) (alt days : Z) (st : state) :
  network (snd (get_next_passes key w lat lng alt days st))
  = (network st ++ [HttpGet (passes_request key lat lng alt days)])%list.
Proof.
  destruct (get_next_passes_events key w lat lng alt days st) as (texts & -> & _).
  rewrite network_after. cbn [filter is_network].
  rewrite network_prints. reflexivity.
Qed.

Lemma print_passes_network (w : world) (timezone_str : string)
    (passes : list json) :
  forall (i : Z) (st : state),
    network (snd (print_passes w i passes timezone_str st)) = network st.
Proof.
  induction passes as [|p passes IH]; intros i st; [reflexivity|].
  cbn [print_passes]. rewrite bind_print.
  unfold bind at 1. rewrite format_pass_info_pure.
  destruct (fst (format_pass_info w p timezone_str (initial []))) as [text|e].
  - rewrite bind_print, IH. rewrite !network_after. cbn. rewrite !app_nil_r.
    reflexivity.
  - cbn [snd]. rewrite network_after. cbn. apply app_nil_r.
Qed.

Lemma report_passes_network (w : world) (passes : json)
    (timezone_str : string) (st : state) :
  network (snd (report_passes w passes timezone_str st)) = network st.
Proof.
  unfold report_passes. destruct (truthy passes).
  - rewrite bind_print. unfold bind at 1, lift.
    destruct (iterate passes) as [items|e].
    + rewrite print_passes_network. rewrite network_after. cbn. apply app_nil_r.
    + cbn [snd]. rewrite network_after. cbn. apply app_nil_r.
  - unfold print, emit. cbn [snd]. unfold network. cbn [trace].
    rewrite filter_app. cbn. apply app_nil_r.
Qed.

Lemma report_position_network (w : world) (pos : position) (st : state) :
  network (snd (report_position w pos st)) = network st /\
  fst (report_position w pos st) = Ok tt.
Proof.
  unfold report_position.
  destruct pos as [[[lat|] [lng|]] [alt|]];
    rewrite ?bind_print; unfold print, emit; cbn [fst snd];
    unfold network, after; cbn [trace]; rewrite ?filter_app; cbn;
    rewrite ?app_nil_r; split; reflexivity.
Qed.

Lemma session_query (key : option string) (location : option string)
    (lat lng : float) :
  session key (query_of location) lat lng
  = (match location with
     | None | Some "" => []
     | Some q => [Geocode q]
     end ++ [HttpGet (positions_request key);
             HttpGet (passes_request key lat lng 0 10)])%list.
Proof. destruct location as [[|a q]|]; reflexivity. Qed.

(** The network calls of [main] once the location is known: the query for
    it, then the two requests, the second for the coordinates that
    [get_city_coordinates] returned. *)
Lemma main_network_located (key : option string) (w : world) (st0 st1 : state)
    (loc : option string) (r : result unit) (st' : state) :
  network st0 = [] ->
  get_user_location st0 = (Ok loc, st1) ->
  main key w st0 = (r, st') ->
  exists lat lng rest,
    session key (query_of loc) lat lng = (network st' ++ rest)%list /\
    (r = Ok tt -> rest = []) /\
    (forall c st2, get_city_coordinates w loc st1 = (Ok c, st2) ->
                   fst c = (lat, lng)).
Proof.
  intros N0 E1 E. unfold main in E.
  pose proof (get_user_location_network st0) as N1.
  rewrite E1 in N1. cbn [snd] in N1.
  rewrite (bind_ok _ _ _ _ _ E1) in E.
  unfold bind at 1 in E.
  pose proof (get_city_coordinates_network w loc st1) as N2.
  destruct (get_city_coordinates w loc st1) as [[[[lat lng] addr]|e] st2];
    cbn [snd] in N2; rewrite N1, N0 in N2; cbn [app] in N2.
  2:{ inversion E; subst.
      exists DEFAULT_latitude, DEFAULT_longitude. eexists.
      rewrite N2, session_query.
      split; [reflexivity|split; [discriminate|intros c st2 H; discriminate H]]. }
  exists lat, lng. rewrite session_query.
  destruct (get_timezone_network w lat lng st2) as ([tz|e] & st3 & E3 & N3).
  2:{ unfold bind at 1 in E. rewrite E3 in E. inversion E; subst.
      eexists. rewrite N3, N2.
      split; [reflexivity|split; [discriminate|]].
      intros c s H. inversion H; subst. reflexivity. }
  rewrite (bind_ok _ _ _ _ _ E3) in E. rewrite !bind_print in E.
  unfold bind at 1 in E.
  match type of E with
  | context [get_iss_position key w ?s] =>
      pose proof (get_iss_position_network key w s) as N4;
      destruct (get_iss_position key w s) as [[pos|e] st4]
  end;
    cbn [snd] in N4; rewrite !print_network, N3, N2 in N4.
  2:{ inversion E; subst. eexists. rewrite N4, <- app_assoc.
      split; [reflexivity|split; [discriminate|]].
      intros c s H. inversion H; subst. reflexivity. }
  unfold bind at 1 in E.
  destruct (report_position_network w pos st4) as (N5 & R5).
  destruct (report_position w pos st4) as [[[]|e] st5];
    cbn [fst snd] in N5, R5; [|discriminate R5].
  rewrite bind_print in E. unfold bind at 1 in E.
  match type of E with
  | context [get_next_passes key w lat lng 0 10 ?s] =>
      pose proof (get_next_passes_network key w lat lng 0 10 s) as N6;
      destruct (get_next_passes key w lat lng 0 10 s) as [[passes|e] st6]
  end;
    cbn [snd] in N6; rewrite print_network, N5, N4 in N6.
  2:{ inversion E; subst. exists []. rewrite N6, <- !app_assoc, app_nil_r.
      split; [reflexivity|split; [discriminate|]].
      intros c s H. inversion H; subst. reflexivity. }
  pose proof (report_passes_network w passes tz st6) as N7.
  rewrite E in N7. cbn [snd] in N7.
  exists []. rewrite N7, N6, <- !app_assoc, app_nil_r.
  split; [reflexivity|split; [reflexivity|]].
  intros c s H. inversion H; subst. reflexivity.
Qed.

Lemma main_network (key : option string) (w : world) (st0 : state)
    (r : result unit) (st' : state) :
  network st0 = [] ->
  main key w st0 = (r, st') ->
  exists query lat lng rest,
    session key query lat lng = (network st' ++ rest)%list /\
    (r = Ok tt -> rest = []).
Proof.
  intros N0 E.
  destruct (get_user_location st0) as [[loc|e] st1] eqn:E1.
  - destruct (main_network_located key w st0 st1 loc r st' N0 E1 E)
      as (lat & lng & rest & H1 & H2 & _).
    exists (query_of loc), lat, lng, rest. split; assumption.
  - pose proof (get_user_location_network st0) as N1.
    rewrite E1 in N1. cbn [snd] in N1.
    unfold main in E. unfold bind at 1 in E. rewrite E1 in E.
    inversion E; subst.
    exists None, DEFAULT_latitude, DEFAULT_longitude. eexists.
    rewrite N1, N0. split; [reflexivity|discriminate].
Qed.

(** X16. With the credential present, whatever stdin holds and whatever the
    collaborators answer, the network calls of a run are, in this order, at
    most one geocoding query, one position request and one pass request
    (with altitude 0 and 10 days): the run never repeats a call and never
    makes another one.  A run that completes normally has made the position
    request and the pass request. *)
Theorem network_calls_of_a_run (k : string) (w : world) (lines : list string) :
  k <> "" ->
  exists query lat lng rest,
    session (Some k) query lat lng
    = (network (snd (run (Some k) w lines)) ++ rest)%list /\
    (fst (run (Some k) w lines) = Ok tt -> rest = []).
Proof.
  intros Hk. unfold run, program. destruct k as [|a k']; [contradiction|].
  exact (main_network (Some (String a k')) w (initial lines) _ _ eq_refl
           (surjective_pairing _)).
Qed.

(** X16 where nothing outside answers. *)
Lemma network_calls_of_a_run_witness :
  exists query lat lng rest,
    session (Some "KEY") query lat lng
    = (network (snd (run (Some "KEY") offline_world ["Paris"; ""; "France"]))
       ++ rest)%list /\
    (fst (run (Some "KEY") offline_world ["Paris"; ""; "France"]) = Ok tt ->
     rest = []).
Proof.
  exact (network_calls_of_a_run "KEY" offline_world ["Paris"; ""; "France"]
           ltac:(discriminate)).
Defined.

(** X18. With the credential present, when the answer to the city prompt
    is blank, the run makes no geocoding query at all, and its pass request,
    when it comes to it, is for the default coordinates of Los Angeles: the
    network calls are at most the position request and that pass request,
    both of them when the run completes normally. *)
Theorem enter_means_los_angeles (k : string) (w : world) (city : string)
    (more : list string) :
  k <> "" ->
  blank city = true ->
  exists rest,
    session (Some k) None DEFAULT_latitude DEFAULT_longitude
    = (network (snd (run (Some k) w (city :: more))) ++ rest)%list /\
    (fst (run (Some k) w (city :: more)) = Ok tt -> rest = []).
Proof.
  intros Hk Hb. unfold run, program. destruct k as [|a k']; [contradiction|].
  set (key := Some (String a k')).
  destruct (main_network_located key w (initial (city :: more)) _ None _ _
              eq_refl (get_user_location_blank city more [] Hb)
              (surjective_pairing (main key w (initial (city :: more)))))
    as (lat & lng & rest & H1 & H2 & H3).
  specialize (H3 _ _ eq_refl). cbn [fst default_location] in H3.
  inversion H3; subst lat lng.
  exists rest. split; assumption.
Qed.

(** X18 where every collaborator would answer. *)
Lemma enter_means_los_angeles_witness :
  exists rest,
    session (Some "KEY") None DEFAULT_latitude DEFAULT_longitude
    = (network (snd (run (Some "KEY") answering_world [""])) ++ rest)%list /\
    (fst (run (Some "KEY") answering_world [""]) = Ok tt -> rest = []).
Proof.
  exact (enter_means_los_angeles "KEY" answering_world "" []
           ltac:(discriminate) eq_refl).
Defined.

(* ================================================================== *)
(** ** What a run reads *)

Lemma quiet_refl (st : state) : quiet st st.
Proof. split; reflexivity. Qed.

Lemma quiet_trans (a b c : state) : quiet a b -> quiet b c -> quiet a c.
Proof. intros [H1 H2] [H3 H4]. split; congruence. Qed.

Lemma quiet_after (st : state) (evs : list event) :
  filter is_prompt evs = [] -> quiet st (after st evs).
Proof.
  intros H. split; [reflexivity|].
  unfold prompts, after. cbn [trace]. rewrite filter_app, H. apply app_nil_r.
Qed.

Lemma no_prompt_in_prints (texts : list string) :
  filter is_prompt (map Print texts) = [].
Proof. induction texts; cbn; auto. Qed.

Lemma get_city_coordinates_quiet (w : world) (location : option string)
    (st : state) :
  quiet st (snd (get_city_coordinates w location st)).
Proof.
  destruct location as [[|a q]|];
    cbv beta zeta delta [get_city_coordinates try_except bind print emit lift ret];
    cbn [fst snd stdin trace].
  - apply (quiet_after st [_]). reflexivity.
  - destruct (geocode w (String a q)) as [[ld|]|e]; cbn [fst snd stdin trace];
      try destruct (is_GeocoderTimedOut_or_Unavailable e);
      cbn [fst snd stdin trace]; rewrite <- ?app_assoc;
      first [apply (quiet_after st [_; _]) | apply (quiet_after st [_])];
      reflexivity.
  - apply (quiet_after st [_]). reflexivity.
Qed.

Lemma get_iss_position_quiet (key : option string) (w : world) (st : state) :
  quiet st (snd (get_iss_position key w st)).
Proof.
  destruct (get_iss_position_events key w st) as (texts & -> & _).
  apply quiet_after. cbn. apply no_prompt_in_prints.
Qed.

Lemma get_next_passes_quiet (key : option string) (w : world)
    (lat lng : float) (alt days : Z) (st : state) :
  quiet st (snd (get_next_passes key w lat lng alt days st)).
Proof.
  destruct (get_next_passes_events key w lat lng alt days st) as (texts & -> & _).
  apply quiet_after. cbn. apply no_prompt_in_prints.
Qed.

Lemma print_quiet (text : string) (st : state) :
  quiet st (after st [Print text]).
Proof. apply quiet_after. reflexivity. Qed.

Lemma quiet_print (st st' : state) (text : string) :
  quiet st st' -> quiet st (after st' [Print text]).
Proof. intros H. eapply quiet_trans; [exact H|apply print_quiet]. Qed.

Lemma print_passes_quiet (w : world) (timezone_str : string)
    (passes : list json) :
  forall (i : Z) (st : state),
    quiet st (snd (print_passes w i passes timezone_str st)).
Proof.
  induction passes as [|p passes IH]; intros i st; [apply quiet_refl|].
  cbn [print_passes]. rewrite bind_print.
  unfold bind at 1. rewrite format_pass_info_pure.
  destruct (fst (format_pass_info w p timezone_str (initial []))) as [text|e].
  - rewrite bind_print.
    eapply quiet_trans; [|apply IH].
    repeat apply quiet_print. apply quiet_refl.
  - cbn [snd]. apply print_quiet.
Qed.

Lemma report_passes_quiet (w : world) (passes : json)
    (timezone_str : string) (st : state) :
  quiet st (snd (report_passes w passes timezone_str st)).
Proof.
  unfold report_passes. destruct (truthy passes).
  - rewrite bind_print. unfold bind at 1, lift.
    destruct (iterate passes) as [items|e].
    + eapply quiet_trans; [|apply print_passes_quiet]. apply print_quiet.
    + cbn [snd]. apply print_quiet.
  - apply (print_quiet _ st).
Qed.

Lemma report_position_quiet (w : world) (pos : position) (st : state) :
  quiet st (snd (report_position w pos st)).
Proof.
  unfold report_position.
  destruct pos as [[[lat|] [lng|]] [alt|]];
    rewrite ?bind_print; unfold print, emit; cbn [snd];
    fold (after st); try apply (print_quiet _ st).
  change (quiet st
            (after (after (after (after st [Print (nl ++ "Current ISS Position:")])
               [Print ("Latitude: " ++ format_fixed w 4 lat ++ deg)])
               [Print ("Longitude: " ++ format_fixed w 4 lng ++ deg)])
               [Print ("Altitude: " ++ format_fixed w 2 alt ++ " km")])).
  repeat apply quiet_print. apply quiet_refl.
Qed.

(** After the location prompt [main] reads nothing and shows no prompt. *)
Lemma main_quiet (key : option string) (w : world) (st0 st1 : state)
    (loc : option string) :
  get_user_location st0 = (Ok loc, st1) ->
  quiet st1 (snd (main key w st0)).
Proof.
  intros E1. unfold main. rewrite (bind_ok _ _ _ _ _ E1).
  unfold bind at 1.
  pose proof (get_city_coordinates_quiet w loc st1) as Q2.
  destruct (get_city_coordinates w loc st1) as [[[[lat lng] addr]|e] st2];
    cbn [snd] in Q2 |- *; [|exact Q2].
  pose proof (get_timezone_from_coordinates_cases w lat lng st2) as E3.
  destruct (match timezone_at w lat lng with
            | Ok None => Ok "America/Los_Angeles"
            | Ok (Some tz) => if String.eqb tz "" then Ok "America/Los_Angeles"
                              else Ok tz
            | Raise e => Raise e
            end) as [tz|e].
  2:{ unfold bind at 1. rewrite E3. cbn [snd].
      eapply quiet_trans; [exact Q2|]. apply quiet_after. reflexivity. }
  rewrite (bind_ok _ _ _ _ _ E3). rewrite !bind_print.
  assert (Q3 : quiet st1 (after (after (after (after (after st2
                 [TimezoneAt lat lng]) [Print (nl ++ "Location: " ++ addr)])
                 [Print ("Coordinates: " ++ format_fixed w 4 lat ++ ", "
                         ++ format_fixed w 4 lng)])
                 [Print ("Timezone: " ++ tz)])
                 [Print (nl ++ "Fetching ISS position...")])).
  { repeat apply quiet_print.
    eapply quiet_trans; [exact Q2|]. apply quiet_after. reflexivity. }
  unfold bind at 1.
  match goal with
  | |- context [get_iss_position key w ?s] =>
      pose proof (get_iss_position_quiet key w s) as Q4;
      destruct (get_iss_position key w s) as [[pos|e] st4]
  end; cbn [snd] in Q4 |- *;
    [|exact (quiet_trans _ _ _ Q3 Q4)].
  unfold bind at 1.
  pose proof (report_position_quiet w pos st4) as Q5.
  destruct (report_position w pos st4) as [[[]|e] st5]; cbn [snd] in Q5 |- *;
    [|exact (quiet_trans _ _ _ Q3 (quiet_trans _ _ _ Q4 Q5))].
  rewrite bind_print. unfold bind at 1.
  match goal with
  | |- context [get_next_passes key w lat lng 0 10 ?s] =>
      pose proof (get_next_passes_quiet key w lat lng 0 10 s) as Q6;
      destruct (get_next_passes key w lat lng 0 10 s) as [[passes|e] st6]
  end; cbn [snd] in Q6 |- *.
  - eapply quiet_trans; [|apply report_passes_quiet].
    eapply quiet_trans; [|exact Q6]. apply quiet_print.
    exact (quiet_trans _ _ _ Q3 (quiet_trans _ _ _ Q4 Q5)).
  - eapply quiet_trans; [|exact Q6]. apply quiet_print.
    exact (quiet_trans _ _ _ Q3 (quiet_trans _ _ _ Q4 Q5)).
Qed.

(** X19. With the credential present, whatever stdin holds and whatever the
    collaborators answer, a run reads at most the first three lines of
    stdin and shows at most the city, state and country prompts, in that
    order: once the location is asked for, nothing more is read and no
    prompt is shown, so the rest of stdin is left as it was. *)
Theorem input_is_read_first (k : string) (w : world) (lines : list string) :
  k <> "" ->
  exists n m,
    (n <= 3)%nat /\ (m <= 3)%nat /\
    stdin (snd (run (Some k) w lines)) = skipn n lines /\
    prompts (snd (run (Some k) w lines))
    = firstn m [city_prompt; state_prompt; country_prompt].
Proof.
  intros Hk. unfold run, program. destruct k as [|a k']; [contradiction|].
  set (key := Some (String a k')).
  set (st0 := {| stdin := lines; trace := [] |}).
  destruct (get_user_location st0) as [[loc|e] st1] eqn:E1.
  - destruct (main_quiet key w st0 st1 loc E1) as (-> & ->).
    subst st0. revert E1.
    destruct lines as [|city [|state [|country rest]]]; run_location;
      try destruct (String.eqb (strip city) ""); intros E1;
      inversion E1; subst; clear E1.
    all: try (exists 1%nat, 1%nat; repeat split; lia).
    all: try (exists 3%nat, 3%nat; repeat split; lia).
  - unfold main. unfold bind at 1. rewrite E1. cbn [snd].
    subst st0. revert E1.
    destruct lines as [|city [|state [|country rest]]]; run_location;
      try destruct (String.eqb (strip city) ""); intros E1;
      inversion E1; subst; clear E1.
    + exists 0%nat, 1%nat. repeat split; lia.
    + exists 1%nat, 2%nat. repeat split; lia.
    + exists 2%nat, 3%nat. repeat split; lia.
Qed.

(** X19 on four lines, the last of which is left. *)
Lemma input_is_read_first_witness :
  exists n m,
    (n <= 3)%nat /\ (m <= 3)%nat /\
    stdin (snd (run (Some "KEY") answering_world ["Paris"; ""; ""; "more"]))
    = skipn n ["Paris"; ""; ""; "more"] /\
    prompts (snd (run (Some "KEY") answering_world ["Paris"; ""; ""; "more"]))
    = firstn m [city_prompt; state_prompt; country_prompt].
Proof.
  exact (input_is_read_first "KEY" answering_world ["Paris"; ""; ""; "more"]
           ltac:(discriminate)).
Defined.

(* ================================================================== *)
(** ** A run in which every collaborator answers *)

Lemma get_city_coordinates_match (w : world) (q : string) (ld : location_data)
    (st : state) :
  q <> "" ->
  geocode w q = Ok (Some ld) ->
  get_city_coordinates w (Some q) st
  = (Ok (latitude ld, longitude ld, address ld),
     after st [Geocode q; Print (nl ++ "Found location: " ++ address ld)]).
Proof.
  intros Hq Hg. destruct q as [|a q]; [contradiction|].
  cbv beta zeta delta [get_city_coordinates try_except bind print emit lift ret].
  cbn [fst snd stdin trace]. rewrite Hg. cbn [fst snd stdin trace].
  unfold after. cbn [stdin trace]. rewrite <- app_assoc. reflexivity.
Qed.

Lemma get_timezone_match (w : world) (lat lng : float) (tz : string)
    (st : state) :
  timezone_at w lat lng = Ok (Some tz) -> tz <> "" ->
  get_timezone_from_coordinates w lat lng st
  = (Ok tz, after st [TimezoneAt lat lng]).
Proof.
  intros H Hne. rewrite get_timezone_from_coordinates_cases, H.
  destruct (String.eqb_spec tz ""); [contradiction|reflexivity].
Qed.

Lemma get_iss_position_answer (w : world) (key : option string) (data : json)
    (lat lng alt : float) (st : state) :
  position_answer w key data lat lng alt ->
  get_iss_position key w st
  = (Ok (Some lat, Some lng, Some alt),
     after st [Sleep 1; HttpGet (positions_request key);
               Print ("API Response: " ++ str w data)]).
Proof.
  intros (resp & d & entry & more & -> & Hg & Hs & Hb & Herr & Hp & Hf).
  unfold positions_request in *. run_position.
  rewrite Hg. cbn [fst snd]. read_response Hs Hb.
  rewrite Herr, Hp. cbn [truthy negb getitem_0 fst snd].
  unfold position_fields in Hf.
  destruct (rbind (getitem_str entry "satlatitude") (py_float w)) as [a|e1];
    cbn [rbind fst snd] in *; [|discriminate].
  destruct (rbind (getitem_str entry "satlongitude") (py_float w)) as [b|e1];
    cbn [rbind fst snd] in *; [|discriminate].
  destruct (rbind (getitem_str entry "sataltitude") (py_float w)) as [c|e1];
    cbn [rbind fst snd] in *; [|discriminate].
  inversion Hf; subst.
  unfold after. cbn [stdin trace]. rewrite <- !app_assoc. reflexivity.
Qed.

Lemma report_position_present (w : world) (lat lng alt : float) (st : state) :
  report_position w (Some lat, Some lng, Some alt) st
  = (Ok tt,
     after st [Print (nl ++ "Current ISS Position:");
               Print ("Latitude: " ++ format_fixed w 4 lat ++ deg);
               Print ("Longitude: " ++ format_fixed w 4 lng ++ deg);
               Print ("Altitude: " ++ format_fixed w 2 alt ++ " km")]).
Proof.
  unfold report_position. rewrite !bind_print.
  unfold print, emit, after. cbn [stdin trace].
  rewrite <- !app_assoc. reflexivity.
Qed.

Lemma get_next_passes_answer (w : world) (key : option string)
    (lat lng : float) (passes : list json) (st : state) :
  passes_answer w key lat lng passes ->
  get_next_passes key w lat lng 0 10 st
  = (Ok (JList passes), after st [HttpGet (passes_request key lat lng 0 10)]).
Proof.
  intros (resp & data & Hg & Hs & Hb & Hp).
  unfold passes_request in *. run_passes.
  rewrite Hg. cbn [fst snd]. rewrite Hs.
  unfold response_json. rewrite Hb, Hp. reflexivity.
Qed.

(** X17. A run in which every collaborator answers.  With the credential
    present, three answers in ASCII text with a city that is not blank, a
    geocoder match for the location built from them, a timezone for the
    coordinates of the match, a position response whose first entry
    converts, and a pass response whose passes all format, the run returns
    normally and does exactly this, in order: the prompts, the geocoding
    query, the timezone lookup for the coordinates of the match, the three
    location lines, the sleep and the position request, the echoed body and
    the position lines, the pass request for the coordinates of the match
    (not those of the ISS) with altitude 0 and 10 days, and the numbered
    passes formatted in the looked-up timezone. *)
Theorem answered_run (k : string) (w : world) (city state country : string)
    (rest : list string) (ld : location_data) (tz : string) (data : json)
    (lat lng alt : float) (passes : list json) (texts : list string) :
  let key := Some k in
  let query := location_string city state country in
  k <> "" ->
  ascii_text city = true -> ascii_text state = true ->
  ascii_text country = true ->
  blank city = false ->
  geocode w query = Ok (Some ld) ->
  timezone_at w (latitude ld) (longitude ld) = Ok (Some tz) -> tz <> "" ->
  position_answer w key data lat lng alt ->
  passes_answer w key (latitude ld) (longitude ld) passes ->
  passes <> [] ->
  Forall2 (formats_to w tz) passes texts ->
  run key w (city :: state :: country :: rest)
  = (Ok tt,
     {| stdin := rest;
        trace := full_report w key query ld tz data lat lng alt texts |}).
Proof.
  intros key query Hk _ _ _ Hcity Hgeo Htz Htz' Hpos Hpass Hne Htexts.
  subst key. destruct k as [|a k']; [contradiction|].
  set (key := Some (String a k')) in *.
  unfold run. change (program key w) with (main key w). unfold main.
  rewrite (bind_ok _ _ _ _ _ (get_user_location_answers _ _ _ _ _ Hcity)).
  fold query.
  rewrite (bind_ok _ _ _ _ _
             (get_city_coordinates_match w query ld _
                (location_string_not_empty _ _ _) Hgeo)).
  rewrite (bind_ok _ _ _ _ _ (get_timezone_match w _ _ tz _ Htz Htz')).
  rewrite !bind_print.
  rewrite (bind_ok _ _ _ _ _ (get_iss_position_answer w key data lat lng alt _ Hpos)).
  rewrite (bind_ok _ _ _ _ _ (report_position_present w lat lng alt _)).
  rewrite !bind_print.
  rewrite (bind_ok _ _ _ _ _ (get_next_passes_answer w key _ _ passes _ Hpass)).
  unfold report_passes.
  destruct passes as [|p passes]; [contradiction|].
  cbn [truthy iterate]. rewrite bind_print.
  unfold bind at 1, lift.
  rewrite (print_passes_listing w tz _ _ Htexts).
  unfold after, full_report. cbn [stdin trace app].
  reflexivity.
Qed.

(** X17 for Paris and one pass. *)
Lemma answered_run_witness :
  run (Some "KEY") answering_world ["Paris"; ""; "France"]
  = (Ok tt,
     {| stdin := [];
        trace := full_report answering_world (Some "KEY") "Paris, France" paris
                   "Europe/Paris" position_data
                   (decimal (-4182) 2) (decimal 1359 2) (decimal 42021 2)
                   [sample_text] |}).
Proof.
  apply (answered_run "KEY" answering_world "Paris" "" "France" [] paris
           "Europe/Paris" position_data _ _ _ [sample_pass] [sample_text]).
  - discriminate.
  - reflexivity.
  - reflexivity.
  - reflexivity.
  - reflexivity.
  - reflexivity.
  - reflexivity.
  - discriminate.
  - exists position_response. do 3 eexists. repeat split.
  - exists passes_response. eexists. repeat split.
  - discriminate.
  - constructor; [exact sample_pass_formats_answering|constructor].
Defined.

(* ================================================================== *)
(** ** Failures that a run absorbs *)













(* ================================================================== *)
(** ** Cardinal directions beyond the first turn *)

Lemma cardinalDirection_label (n : Z) (d : positive) :
  cardinalDirection (n # d) = label_at (round_half_even (2 * n) (45 * Zpos d)).
Proof.
  rewrite cardinalDirection_nth. unfold label_at. rewrite Qround_div_22_5. reflexivity.
Qed.

Lemma cardinalDirection_sector (a : Q) (k : Z) :
  (inject_Z k * (45 # 2) - (45 # 4) < a)%Q ->
  (a < inject_Z k * (45 # 2) + (45 # 4))%Q ->
  cardinalDirection a = label_at k.
Proof.
  destruct a as [n d]. intros Hlo Hhi.
  rewrite cardinalDirection_label. f_equal.
  apply nearest_even_rhe; [lia|]. left.
  cbv [Qlt Qplus Qminus Qopp Qmult inject_Z Qnum Qden] in Hlo, Hhi.
  rewrite ?Pos2Z.inj_mul in *. lia.
Qed.

Lemma cardinalDirection_boundary (a : Q) (k : Z) :
  (a == inject_Z (2 * k + 1) * (45 # 4))%Q ->
  cardinalDirection a = label_at (if Z.even k then k else k + 1).
Proof.
  destruct a as [n d]. intros H.
  rewrite cardinalDirection_label. f_equal.
  apply nearest_even_rhe; [lia|].
  cbv [Qeq Qmult inject_Z Qnum Qden] in H.
  rewrite ?Pos2Z.inj_mul in *.
  destruct (Z.even k) eqn:Hk.
  - right. left. split; [lia|exact Hk].
  - right. right. split; [lia|].
    rewrite Z.even_add, Hk. reflexivity.
Qed.

(** X10. What [get_cardinal_direction] gives for each kind of argument.  For
    every finite double and every int of magnitude below 2^53, negative
    ones included, it returns one of the 16 labels: the index is reduced
    modulo 16 and is never out of range.  NaN raises ValueError and an
    infinity OverflowError (both from [round]), an int too large for a
    double raises OverflowError, and [None], a string, a list or a dict
    raise TypeError. *)
Theorem cardinal_direction_results :
  (forall v, is_azimuth v = true ->
             exists d, get_cardinal_direction v = Ok d /\ In d directions) /\
  get_cardinal_direction (JFloat S754_nan) = Raise ValueError /\
  (forall s, get_cardinal_direction (JFloat (S754_infinity s))
             = Raise OverflowError) /\
  get_cardinal_direction (JInt (2 ^ 1024)) = Raise OverflowError /\
  (forall v, match v with
             | JNull | JStr _ | JList _ | JDict _ =>
                 get_cardinal_direction v = Raise TypeError
             | _ => True
             end).
Proof.
  split; [exact get_cardinal_direction_total|].
  split; [reflexivity|].
  split; [intros s; reflexivity|].
  split; [vm_compute; reflexivity|].
  intros v. destruct v; try exact I; reflexivity.
Qed.

(** X10 at -725 degrees. *)
Lemma cardinal_direction_results_witness :
  exists d, get_cardinal_direction (JInt (-725)) = Ok d /\ In d directions.
Proof.
  exact (proj1 cardinal_direction_results (JInt (-725)) eq_refl).
Defined.

(** X11. On every turn, not only the first: an azimuth of magnitude below
    2^51 that lies strictly within 11.25 degrees of [22.5 * k], for any
    integer [k], negative or beyond 16, gets the label at position
    [k mod 16] of the rose. *)
Theorem every_sector (azimuth : json) (k : Z) :
  is_number azimuth = true ->
  (Qabs (number_value azimuth) < magnitude_bound)%Q ->
  (inject_Z k * (45 # 2) - (45 # 4) < number_value azimuth)%Q ->
  (number_value azimuth < inject_Z k * (45 # 2) + (45 # 4))%Q ->
  get_cardinal_direction azimuth = Ok (label_at k).
Proof.
  intros Hn Hb Hlo Hhi.
  rewrite (get_cardinal_direction_exact azimuth Hn Hb). f_equal.
  apply cardinalDirection_sector; assumption.
Qed.

(** X11 at -100 degrees (sector -4) and at 400.5 degrees (sector 18). *)
Lemma every_sector_witness :
  get_cardinal_direction (JInt (-100)) = Ok "W" /\
  get_cardinal_direction (JFloat (decimal 4005 1)) = Ok "NE".
Proof.
  split.
  - apply (every_sector (JInt (-100)) (-4)); reflexivity.
  - apply (every_sector (JFloat (decimal 4005 1)) 18);
      [reflexivity|vm_compute; reflexivity..].
Defined.

(** X12. An azimuth exactly on the boundary between two sectors, that is an
    odd multiple [(2k+1) * 11.25] of magnitude below 2^51, gets the label of
    the neighbour with the even position: [round] sends the tie [k + 0.5] to
    the even integer.  So N, NE, E, SE, S, SW, W and NW own both their
    boundaries, and the eight labels between them own neither. *)
Theorem boundary_goes_to_even_index (azimuth : json) (k : Z) :
  is_number azimuth = true ->
  (Qabs (number_value azimuth) < magnitude_bound)%Q ->
  (number_value azimuth == inject_Z (2 * k + 1) * (45 # 4))%Q ->
  get_cardinal_direction azimuth
  = Ok (label_at (if Z.even k then k else k + 1)).
Proof.
  intros Hn Hb Hv.
  rewrite (get_cardinal_direction_exact azimuth Hn Hb). f_equal.
  apply cardinalDirection_boundary. exact Hv.
Qed.

(** X12 at 11.25, 33.75 and 56.25 degrees. *)
Lemma boundary_goes_to_even_index_witness :
  get_cardinal_direction (JFloat (decimal 1125 2)) = Ok "N" /\
  get_cardinal_direction (JFloat (decimal 3375 2)) = Ok "NE" /\
  get_cardinal_direction (JFloat (decimal 5625 2)) = Ok "NE".
Proof.
  split; [|split].
  - apply (boundary_goes_to_even_index (JFloat (decimal 1125 2)) 0);
      [reflexivity|vm_compute; reflexivity..].
  - apply (boundary_goes_to_even_index (JFloat (decimal 3375 2)) 1);
      [reflexivity|vm_compute; reflexivity..].
  - apply (boundary_goes_to_even_index (JFloat (decimal 5625 2)) 2);
      [reflexivity|vm_compute; reflexivity..].
Defined.

Lemma negated_number (v : json) :
  is_number v = true ->
  is_number (negated v) = true /\
  (number_value (negated v) == - number_value v)%Q.
Proof.
  destruct v as [| |n|f| | |]; try discriminate; intros H.
  - split; [reflexivity|]. cbn [negated number_value].
    unfold Qeq, Qopp, inject_Z. cbn [Qnum Qden]. lia.
  - cbn [negated is_number number_value] in *.
    destruct f as [s|s| |s m e]; try discriminate.
    + split; [exact H|reflexivity].
    + split; [exact H|].
      cbn [SFopp F2Q]. destruct e as [|p|p];
        unfold Qeq, Qopp, inject_Z; cbn [Qnum Qden];
        destruct s; cbn [negb cond_Zopp]; lia.
Qed.

Lemma label_at_opp (r : Z) : mirrored (label_at r) = label_at (- r).
Proof.
  assert (E : label_at (- Z.of_nat (Z.to_nat (r mod 16))) = label_at (- r)).
  { unfold label_at. do 2 f_equal.
    pose proof (Z.mod_pos_bound r 16 ltac:(lia)).
    rewrite Z2Nat.id by lia.
    rewrite (Z.div_mod r 16) at 2 by lia.
    replace (- (16 * (r / 16) + r mod 16))
      with (- (r mod 16) + (- (r / 16)) * 16) by lia.
    rewrite Z.mod_add by lia. reflexivity. }
  rewrite <- E. unfold mirrored, label_at at 1.
  pose proof (Z.mod_pos_bound r 16 ltac:(lia)) as Hr.
  assert (Hn : (Z.to_nat (r mod 16) < 16)%nat) by lia.
  generalize dependent (Z.to_nat (r mod 16)). intros j _ Hj.
  do 16 (destruct j as [|j]; [reflexivity|]). lia.
Qed.

Lemma cardinalDirection_opp (a : Q) :
  cardinalDirection (- a) = mirrored (cardinalDirection a).
Proof.
  destruct a as [n d]. unfold Qopp. cbn [Qnum Qden].
  rewrite !cardinalDirection_label, label_at_opp. f_equal.
  replace (2 * - n) with (- (2 * n)) by lia.
  apply rhe_opp. lia.
Qed.

(** X13. Negating an azimuth of magnitude below 2^51 mirrors its label in
    the north-south axis: E becomes W, NNE becomes NNW, and N and S stay.
    A negative azimuth is thus read counter-clockwise from north. *)
Theorem negation_mirrors (azimuth : json) (d : string) :
  is_number azimuth = true ->
  (Qabs (number_value azimuth) < magnitude_bound)%Q ->
  get_cardinal_direction azimuth = Ok d ->
  get_cardinal_direction (negated azimuth) = Ok (mirrored d).
Proof.
  intros Hn Hb Hd.
  rewrite (get_cardinal_direction_exact azimuth Hn Hb) in Hd.
  inversion Hd; subst d.
  destruct (negated_number azimuth Hn) as (Hn' & Hv).
  assert (Hb' : (Qabs (number_value (negated azimuth)) < magnitude_bound)%Q).
  { rewrite Hv, Qabs_opp. exact Hb. }
  rewrite (get_cardinal_direction_exact _ Hn' Hb'). f_equal.
  rewrite <- cardinalDirection_opp.
  apply cardinalDirection_congruent with 0.
  rewrite Hv. cbn. ring.
Qed.

(** X13 at 70 degrees, labelled ENE. *)
Lemma negation_mirrors_witness :
  get_cardinal_direction (JInt (-70)) = Ok "WNW".
Proof.
  exact (negation_mirrors (JInt 70) "ENE" eq_refl eq_refl eq_refl).
Defined.
